(** * The pending-booking reminder cron job

    A shallow embedding of [apps/web/pages/api/cron/bookingReminder.ts]:
    the HTTP handler that, for each elapsed-time threshold, looks up the
    pending bookings that are old enough, drops those that already have a
    reminder record at that threshold or a larger one, mails the organizer
    and records the reminder.

    The two database tables, the mail transport, the console and the
    wall clock are explicit state; a rejected promise that nobody catches
    is an abort of the handler. *)

From Stdlib Require Import ZArith Lia Bool Ascii String Sorted.
From stdpp Require Import base list strings.
Import ListNotations.

Local Open Scope string_scope.
Local Open Scope list_scope.
Local Open Scope Z_scope.

(** ** JavaScript values the handler looks at *)

(** Truthiness of a [string | null | undefined]: the empty string, [null]
    and [undefined] are falsy. *)
Definition truthy (s : option string) : bool :=
  match s with
  | Some s => negb (String.eqb s "")
  | None => false
  end.

(** [a || b] on nullable strings. *)
Definition js_or (a b : option string) : option string :=
  if truthy a then a else b.

(** [a ?? d] on a nullable string. *)
Definition nullish (a : option string) (d : string) : string :=
  match a with
  | Some s => s
  | None => d
  end.

(** A Prisma [Json] column. Numbers are kept integral: the handler
    never computes with them. *)
Unset Elimination Schemes.
Inductive JsonValue :=
| JNull
| JBool (b : bool)
| JNumber (n : Z)
| JString (s : string)
| JArray (l : list JsonValue)
| JObject (kv : list (string * JsonValue)).
Set Elimination Schemes.

(** Modelled from the spec: [isPrismaObjOrUndefined] of [@calcom/lib] is
    not part of the sources at hand.  The payload carries the custom
    inputs only if they form a well-formed key/value structure, and
    omits them otherwise. *)
Definition isPrismaObjOrUndefined (v : JsonValue)
  : option (list (string * JsonValue)) :=
  match v with
  | JObject kv => Some kv
  | _ => None
  end.

(** ** The Prisma schema, as far as the handler selects it *)

Inductive BookingStatus := CANCELLED | ACCEPTED | REJECTED | PENDING.

(** Modelled from the spec: the [ReminderType] enum is declared in the
    Prisma schema, which is not part of the sources at hand.  The ledger
    table is shared with other reminder kinds, told apart by a tag. *)
Inductive ReminderType :=
| PENDING_BOOKING_CONFIRMATION
| OTHER_REMINDER (tag : string).

Definition BookingStatus_eqb (a b : BookingStatus) : bool :=
  match a, b with
  | CANCELLED, CANCELLED | ACCEPTED, ACCEPTED
  | REJECTED, REJECTED | PENDING, PENDING => true
  | _, _ => false
  end.

Definition ReminderType_eqb (a b : ReminderType) : bool :=
  match a, b with
  | PENDING_BOOKING_CONFIRMATION, PENDING_BOOKING_CONFIRMATION => true
  | OTHER_REMINDER s, OTHER_REMINDER t => String.eqb s t
  | _, _ => false
  end.

Module DestinationCalendar.
Record t := mk {
  id : Z;
  integration : string;
  externalId : string
}.
End DestinationCalendar.

Module User.
Record t := mk {
  email : string;
  name : option string;
  username : option string;
  locale : option string;
  timeZone : option string;
  destinationCalendar : option DestinationCalendar.t
}.
End User.

Module Attendee.
Record t := mk {
  name : string;
  email : string;
  timeZone : string;
  locale : option string
}.
End Attendee.

(** Instants ([Date], [DateTime] columns) are milliseconds since the
    epoch. *)
Definition Date := Z.

Module Booking.
Record t := mk {
  id : Z;
  uid : string;
  title : string;
  description : option string;
  customInputs : JsonValue;
  location : option string;
  startTime : Date;
  endTime : Date;
  createdAt : Date;
  status : BookingStatus;
  user : option User.t;
  attendees : list Attendee.t;
  destinationCalendar : option DestinationCalendar.t
}.
End Booking.

(** A row of the reminder ledger.  Only the columns the handler writes
    and filters on are kept; the key and the insertion time are filled
    in by the database and never read here. *)
Module ReminderMail.
Record t := mk {
  referenceId : Z;
  reminderType : ReminderType;
  elapsedMinutes : Z
}.
End ReminderMail.

(** ** The notification payload ([CalendarEvent] of [@calcom/types]) *)

(** Modelled from the spec: [getTranslation] of [@server/lib/i18n] is not
    part of the sources at hand.  The Localization Resolver maps a
    locale tag (and a namespace) to a translation function; that
    function is represented by the arguments it was resolved for. *)
Inductive TFunction := FixedT (locale ns : string).

Definition getTranslation (locale ns : string) : TFunction :=
  FixedT locale ns.

Module Language.
Record t := mk {
  translate : TFunction;
  locale : string
}.
End Language.

Module Person.
Record t := mk {
  name : string;
  email : string;
  timeZone : string;
  language : Language.t
}.
End Person.

Module CalendarEvent.
Record t := mk {
  type : string;
  title : string;
  description : option string;
  customInputs : option (list (string * JsonValue));
  location : string;
  startTime : string;
  endTime : string;
  organizer : Person.t;
  attendees : list Person.t;
  uid : string;
  destinationCalendar : option DestinationCalendar.t
}.
End CalendarEvent.

(** ** [Date.prototype.toISOString]

    The built-in renders an instant as [YYYY-MM-DDTHH:mm:ss.sssZ] in
    UTC, with the expanded year [±YYYYYY] outside 0..9999.  (A [Date]
    holds at most 8.64e15 ms either side of the epoch; the columns read
    here are such dates.) *)
Module JsDate.

Definition msPerDay : Z := 86400000.

Definition digit (n : Z) : ascii :=
  ascii_of_nat (48 + Z.to_nat (n mod 10)).

(** The [width] low decimal digits of [n], most significant first. *)
Fixpoint pad (width : nat) (n : Z) : list ascii :=
  match width with
  | O => []
  | S w => pad w (n / 10) ++ [digit n]
  end.

(** Year, month (1..12) and day of month (1..31) of a day number
    counted from 1970-01-01, in the proleptic Gregorian calendar.
    Years are taken to start in March, so that the leap day is the
    last day of a year, and are grouped in eras of 400 years. *)
Definition civil (days : Z) : Z * Z * Z :=
  let z := days + 719468 in
  let era := z / 146097 in
  let doe := z mod 146097 in
  let yoe := (doe - doe / 1460 + doe / 36524 - doe / 146096) / 365 in
  let doy := doe - (365 * yoe + yoe / 4 - yoe / 100) in
  let mp := (5 * doy + 2) / 153 in
  let d := doy - (153 * mp + 2) / 5 + 1 in
  let m := if mp <? 10 then mp + 3 else mp - 9 in
  let y := yoe + era * 400 in
  (if m <=? 2 then y + 1 else y, m, d).

Definition year_digits (y : Z) : list ascii :=
  if (0 <=? y) && (y <=? 9999) then pad 4 y
  else (if y <? 0 then "-"%char else "+"%char) :: pad 6 (Z.abs y).

Definition iso_chars (t : Z) : list ascii :=
  let '(y, m, d) := civil (t / msPerDay) in
  let ms := t mod msPerDay in
  year_digits y ++ "-"%char :: pad 2 m ++ "-"%char :: pad 2 d
    ++ "T"%char :: pad 2 (ms / 3600000)
    ++ ":"%char :: pad 2 (ms / 60000 mod 60)
    ++ ":"%char :: pad 2 (ms / 1000 mod 60)
    ++ "."%char :: pad 3 (ms mod 1000) ++ ["Z"%char].

Definition toISOString (t : Z) : string :=
  string_of_list_ascii (iso_chars t).

(** *** Recognising the format *)

Definition digit_value (c : ascii) : option Z :=
  let n := Z.of_nat (nat_of_ascii c) in
  if (48 <=? n) && (n <=? 57) then Some (n - 48) else None.

(** Reads [width] decimal digits, continuing the number [acc]. *)
Fixpoint number (width : nat) (acc : Z) (l : list ascii)
  : option (Z * list ascii) :=
  match width with
  | O => Some (acc, l)
  | S w =>
      match l with
      | c :: l' =>
          match digit_value c with
          | Some v => number w (10 * acc + v) l'
          | None => None
          end
      | [] => None
      end
  end.

Definition expect (c : ascii) (l : list ascii) : option (list ascii) :=
  match l with
  | c' :: l' => if Ascii.eqb c c' then Some l' else None
  | [] => None
  end.

Definition year (l : list ascii) : option (Z * list ascii) :=
  match l with
  | c :: l' =>
      if Ascii.eqb c "+"%char || Ascii.eqb c "-"%char
      then number 6 0 l' else number 4 0 l
  | [] => None
  end.

Definition within (lo hi : Z) (p : option (Z * list ascii))
  : option (list ascii) :=
  match p with
  | Some (n, l) => if (lo <=? n) && (n <=? hi) then Some l else None
  | None => None
  end.

(** A calendar date and a time of day in UTC, in the extended format
    of ISO 8601: the fields have their widths and separators, and
    every field is in its range. *)
Definition is_iso8601 (s : string) : bool :=
  match
    l ← within 0 999999 (year (list_ascii_of_string s));
    l ← expect "-" l; l ← within 1 12 (number 2 0 l);
    l ← expect "-" l; l ← within 1 31 (number 2 0 l);
    l ← expect "T" l; l ← within 0 23 (number 2 0 l);
    l ← expect ":" l; l ← within 0 59 (number 2 0 l);
    l ← expect ":" l; l ← within 0 59 (number 2 0 l);
    l ← expect "." l; l ← within 0 999 (number 3 0 l);
    expect "Z" l
  with
  | Some [] => true
  | _ => false
  end.

End JsDate.

(** ** [Promise.all]

    [Promise.all] keeps an array of values with one slot per input
    promise and a count of the promises still pending.  Whenever a
    promise is fulfilled, its value is stored in the slot of its own
    index and the count goes down; at zero the array is the result.
    Which pending promise is fulfilled next is up to the event loop:
    [choose] picks it, step by step. *)
Section PromiseAll.
Context {A : Type}.

Fixpoint settle (choose : nat -> nat) (step remaining : nat)
    (pending : list (nat * A)) (values : list (option A))
  : list (option A) :=
  match remaining with
  | O => values
  | S n =>
      match pending !! (choose step mod length pending)%nat with
      | Some (index, v) =>
          settle choose (S step) n
            (delete (choose step mod length pending)%nat pending)
            (<[index := Some v]> values)
      | None => values
      end
  end.

(** The result, if every slot has been filled; [None] stands for a
    promise that stays pending. *)
Definition Promise_all (choose : nat -> nat) (promises : list A)
  : option (list A) :=
  mapM id
    (settle choose 0 (length promises) (imap pair promises)
       (replicate (length promises) None)).
(** What links the bookkeeping of [settle] to the input: the pending
    promises are input promises with an empty slot, each input promise
    is pending or has its value in its slot, and no index is pending
    twice. *)
Definition tracks (promises : list A) (pending : list (nat * A))
    (values : list (option A)) : Prop :=
  length values = length promises
  ∧ (∀ i v, (i, v) ∈ pending → promises !! i = Some v ∧ values !! i = Some None)
  ∧ (∀ i v, promises !! i = Some v → (i, v) ∈ pending ∨ values !! i = Some (Some v))
  ∧ NoDup pending.*1.
End PromiseAll.

(** ** The world the handler runs in *)

Module LogEntry.
Record t := mk {
  bookingId : Z;
  user : option User.t
}.
End LogEntry.

Record State := mkState {
  booking : list Booking.t;            (* table behind prisma.booking *)
  reminderMail : list ReminderMail.t;  (* table behind prisma.reminderMail *)
  outbox : list CalendarEvent.t;       (* mails accepted by the transport *)
  console : list LogEntry.t;           (* console.error *)
  notificationsSent : Z;               (* the handler's counter *)
  clockReads : nat                     (* calls of dayjs() so far *)
}.

(** What the handler cannot decide itself.

    Modelled from the spec: [sendOrganizerRequestReminderEmail] of
    [@calcom/emails] and the Prisma client are not part of the sources at
    hand; the Notification Sender and the ledger insert either succeed or
    fail ([delivers], [persists]: a failure is a rejected promise).
    Reading the two tables is taken to succeed. *)
Record Env := mkEnv {
  CRON_API_KEY : option string;
  clock : nat -> Date;
  delivers : State -> CalendarEvent.t -> bool;
  persists : State -> ReminderMail.t -> bool;
  scheduler : State -> nat -> nat
}.

Inductive Abort :=
| Rejected (callee : string)   (* an awaited promise was rejected *)
| Unsettled.                   (* an awaited promise stays pending *)

Inductive Res (A : Type) :=
| Ok (a : A)
| Failed (e : Abort).
Arguments Ok {A} a.
Arguments Failed {A} e.

(** State and uncaught exception. *)
Definition M (A : Type) : Type := State -> Res A * State.

#[global] Instance M_ret : MRet M := λ A a s, (Ok a, s).
#[global] Instance M_bind : MBind M := λ A B f m s,
  match m s with
  | (Ok a, s') => f a s'
  | (Failed e, s') => (Failed e, s')
  end.

(** [for (const x of l) body] *)
Fixpoint for_of {A} (l : list A) (body : A -> M unit) : M unit :=
  match l with
  | [] => mret ()
  | x :: l' => body x;; for_of l' body
  end.

Definition await {A} (p : option A) : M A := λ s,
  match p with
  | Some a => (Ok a, s)
  | None => (Failed Unsettled, s)
  end.

Definition booking_findMany (where_ : Booking.t -> bool)
  : M (list Booking.t) := λ s,
  (Ok (List.filter where_ (booking s)), s).

Definition reminderMail_findMany (where_ : ReminderMail.t -> bool)
  : M (list ReminderMail.t) := λ s,
  (Ok (List.filter where_ (reminderMail s)), s).

(** The state after each of the handler's effects. *)
Definition logged (e : LogEntry.t) (s : State) : State :=
  mkState (booking s) (reminderMail s) (outbox s)
    (console s ++ [e]) (notificationsSent s) (clockReads s).

Definition mailed (evt : CalendarEvent.t) (s : State) : State :=
  mkState (booking s) (reminderMail s) (outbox s ++ [evt])
    (console s) (notificationsSent s) (clockReads s).

Definition recorded (data : ReminderMail.t) (s : State) : State :=
  mkState (booking s) (reminderMail s ++ [data]) (outbox s)
    (console s) (notificationsSent s) (clockReads s).

Definition counting (n : Z) (s : State) : State :=
  mkState (booking s) (reminderMail s) (outbox s)
    (console s) n (clockReads s).

Definition ticked (s : State) : State :=
  mkState (booking s) (reminderMail s) (outbox s)
    (console s) (notificationsSent s) (S (clockReads s)).

Definition console_error (e : LogEntry.t) : M unit := λ s,
  (Ok (), logged e s).

Definition set_notificationsSent (n : Z) : M unit := λ s,
  (Ok (), counting n s).

Definition get_notificationsSent : M Z := λ s,
  (Ok (notificationsSent s), s).

Section Effects.
Variable env : Env.

Definition dayjs : M Date := λ s,
  (Ok (clock env (clockReads s)), ticked s).

Definition sendOrganizerRequestReminderEmail (evt : CalendarEvent.t)
  : M unit := λ s,
  if delivers env s evt
  then (Ok (), mailed evt s)
  else (Failed (Rejected "sendOrganizerRequestReminderEmail"), s).

Definition reminderMail_create (data : ReminderMail.t) : M unit := λ s,
  if persists env s data
  then (Ok (), recorded data s)
  else (Failed (Rejected "prisma.reminderMail.create"), s).

Definition Promise_all_M {A} (promises : list A) : M (list A) := λ s,
  await (Promise_all (scheduler env s) promises) s.
End Effects.

(** ** Request and response *)

(** [req.query.apiKey : string | string[] | undefined], which is also
    the type of [req.headers.authorization || req.query.apiKey]. *)
Inductive QueryValue :=
| QUndefined
| QString (s : string)
| QArray (l : list string).

Module NextApiRequest.
Record t := mk {
  method : option string;
  authorization : option string;   (* req.headers.authorization *)
  apiKey : QueryValue              (* req.query.apiKey *)
}.
End NextApiRequest.

Inductive Body :=
| Message (message : string)
| NotificationsSent (n : Z).

Record Response := mkResponse {
  status : Z;
  json : Body
}.

(** [env !== apiKey] for [env : string | undefined]: an array is never
    identical to a string or to [undefined]. *)
Definition strict_ne (env : option string) (apiKey : QueryValue) : bool :=
  match env, apiKey with
  | None, QUndefined => false
  | Some a, QString b => negb (String.eqb a b)
  | _, _ => true
  end.

(** [req.headers.authorization || req.query.apiKey] *)
Definition header_or_query (req : NextApiRequest.t) : QueryValue :=
  match NextApiRequest.authorization req with
  | Some a => if truthy (Some a) then QString a else NextApiRequest.apiKey req
  | None => NextApiRequest.apiKey req
  end.

(** ** The handler *)

Definition reminderIntervalMinutes : list Z := [48 * 60; 24 * 60; 3 * 60].

(** [attendeesListPromises]: what each promise is fulfilled with. *)
Definition attendeeBlock (attendee : Attendee.t) : Person.t :=
  Person.mk (Attendee.name attendee) (Attendee.email attendee)
    (Attendee.timeZone attendee)
    (Language.mk (getTranslation (nullish (Attendee.locale attendee) "en") "common")
       (nullish (Attendee.locale attendee) "en")).

(** The object literal [evt]. *)
Definition make_evt (booking : Booking.t) (user : User.t) (name : string)
    (timeZone : string) (tOrganizer : TFunction)
    (attendeesList : list Person.t) : CalendarEvent.t :=
  CalendarEvent.mk
    (Booking.title booking)
    (Booking.title booking)
    (if truthy (Booking.description booking)
     then Booking.description booking else None)
    (isPrismaObjOrUndefined (Booking.customInputs booking))
    (nullish (Booking.location booking) "")
    (JsDate.toISOString (Booking.startTime booking))
    (JsDate.toISOString (Booking.endTime booking))
    (Person.mk name (User.email user) timeZone
       (Language.mk tOrganizer (nullish (User.locale user) "en")))
    attendeesList
    (Booking.uid booking)
    (match Booking.destinationCalendar booking with
     | Some c => Some c
     | None => User.destinationCalendar user
     end).

(** The organizer data the loop body insists on: [user], a truthy
    [name] and a truthy [user.timeZone]. *)
Definition required (booking : Booking.t)
  : option (User.t * string * string) :=
  let user := Booking.user booking in
  let name := js_or (user ≫= User.name) (user ≫= User.username) in
  match user, name, user ≫= User.timeZone with
  | Some user, Some name, Some timeZone =>
      if negb (truthy (Some name)) || negb (truthy (Some timeZone))
      then None else Some (user, name, timeZone)
  | _, _, _ => None
  end.

Section Handler.
Variable env : Env.

(** The body of the inner loop, for one candidate booking. *)
Definition remind (interval : Z) (booking : Booking.t) : M unit :=
  match required booking with
  | None =>
      console_error (LogEntry.mk (Booking.id booking) (Booking.user booking))
      (* continue *)
  | Some (user, name, timeZone) =>
      let tOrganizer := getTranslation (nullish (User.locale user) "en") "common" in
      let attendeesListPromises := map attendeeBlock (Booking.attendees booking) in
      attendeesList ← Promise_all_M env attendeesListPromises;
      let evt := make_evt booking user name timeZone tOrganizer attendeesList in
      sendOrganizerRequestReminderEmail env evt;;
      reminderMail_create env
        (ReminderMail.mk (Booking.id booking) PENDING_BOOKING_CONFIRMATION interval);;
      n ← get_notificationsSent;
      set_notificationsSent (n + 1)
  end.

(** The [where] clauses of the two queries and the filter of the
    inner loop. *)
Definition pending_since (cutoff : Date) (b : Booking.t) : bool :=
  BookingStatus_eqb (Booking.status b) PENDING
  && (Booking.createdAt b <=? cutoff).

Definition reminded (ids : list Z) (interval : Z) (r : ReminderMail.t) : bool :=
  ReminderType_eqb (ReminderMail.reminderType r) PENDING_BOOKING_CONFIRMATION
  && existsb (Z.eqb (ReminderMail.referenceId r)) ids
  && (interval <=? ReminderMail.elapsedMinutes r).

Definition candidates (bookings : list Booking.t)
    (reminders : list ReminderMail.t) : list Booking.t :=
  List.filter
    (λ b, negb (existsb (λ r, ReminderMail.referenceId r =? Booking.id b) reminders))
    bookings.

(** The body of the outer loop, for one threshold. *)
Definition pass (interval : Z) : M unit :=
  now ← dayjs env;
  bookings ← booking_findMany (pending_since (now + (- interval) * 60000));
  reminders ← reminderMail_findMany (reminded (map Booking.id bookings) interval);
  for_of (candidates bookings reminders) (remind interval).

(** The handler after its two guards, over a list of thresholds. *)
Definition dispatch (intervals : list Z) : M Response :=
  set_notificationsSent 0;;
  for_of intervals pass;;
  n ← get_notificationsSent;
  mret (mkResponse 200 (NotificationsSent n)).

Definition handler (req : NextApiRequest.t) : M Response :=
  let apiKey := header_or_query req in
  if strict_ne (CRON_API_KEY env) apiKey
  then mret (mkResponse 401 (Message "Not authenticated"))
  else if negb (bool_decide (NextApiRequest.method req = Some "POST"))
  then mret (mkResponse 405 (Message "Invalid method"))
  else dispatch reminderIntervalMinutes.
End Handler.

(** ** Notions used to state the properties *)

(** The payload the loop body hands to the sender for a booking that
    passes the check of the organizer data. *)
Definition payload (booking : Booking.t) : option CalendarEvent.t :=
  match required booking with
  | Some (user, name, timeZone) =>
      Some (make_evt booking user name timeZone
              (getTranslation (nullish (User.locale user) "en") "common")
              (map attendeeBlock (Booking.attendees booking)))
  | None => None
  end.

Definition valid (booking : Booking.t) : bool :=
  match required booking with
  | Some _ => true
  | None => false
  end.

(** The ledger row and the console entry of the loop body. *)
Definition reminder (interval : Z) (booking : Booking.t) : ReminderMail.t :=
  ReminderMail.mk (Booking.id booking) PENDING_BOOKING_CONFIRMATION interval.

Definition skipped (booking : Booking.t) : LogEntry.t :=
  LogEntry.mk (Booking.id booking) (Booking.user booking).

(** The state after the loop body ran through for one booking, and for
    a list of bookings one after the other. *)
Definition after_remind (interval : Z) (booking : Booking.t) (s : State)
  : State :=
  match payload booking with
  | Some evt =>
      counting (notificationsSent s + 1)
        (recorded (reminder interval booking) (mailed evt s))
  | None => logged (skipped booking) s
  end.

Fixpoint completed (interval : Z) (l : list Booking.t) (s : State) : State :=
  match l with
  | [] => s
  | b :: l' => completed interval l' (after_remind interval b s)
  end.

(** How the inner loop can end: it gets through all candidates, or the
    sender or the ledger insert rejects at some candidate. *)
Inductive loop_outcome (env : Env) (interval : Z) (l : list Booking.t)
    (s : State) : Res unit -> State -> Prop :=
| loop_done :
    loop_outcome env interval l s (Ok ()) (completed interval l s)
| loop_send_failed l1 b l2 evt :
    l = l1 ++ b :: l2 ->
    payload b = Some evt ->
    delivers env (completed interval l1 s) evt = false ->
    loop_outcome env interval l s
      (Failed (Rejected "sendOrganizerRequestReminderEmail"))
      (completed interval l1 s)
| loop_write_failed l1 b l2 evt :
    l = l1 ++ b :: l2 ->
    payload b = Some evt ->
    delivers env (completed interval l1 s) evt = true ->
    persists env (mailed evt (completed interval l1 s)) (reminder interval b) = false ->
    loop_outcome env interval l s
      (Failed (Rejected "prisma.reminderMail.create"))
      (mailed evt (completed interval l1 s)).

(** A ledger row that keeps the booking [id] out of the pass at
    [interval]. *)
Definition suppresses (interval id : Z) (r : ReminderMail.t) : Prop :=
  ReminderMail.reminderType r = PENDING_BOOKING_CONFIRMATION
  ∧ ReminderMail.referenceId r = id
  ∧ interval <= ReminderMail.elapsedMinutes r.

Definition suppressed (interval id : Z) (ledger : list ReminderMail.t) : Prop :=
  ∃ r, r ∈ ledger ∧ suppresses interval id r.

(** The result sets of the two queries and the candidates of the pass
    at [interval] that reads the clock at [now]. *)
Definition fetched (now interval : Z) (s : State) : list Booking.t :=
  List.filter (pending_since (now + (- interval) * 60000)) (booking s).

Definition reminders_of (now interval : Z) (s : State) : list ReminderMail.t :=
  List.filter (reminded (map Booking.id (fetched now interval s)) interval)
    (reminderMail s).

Definition candidates_at (now interval : Z) (s : State) : list Booking.t :=
  candidates (fetched now interval s) (reminders_of now interval s).


(** Every fetched booking that passes the organizer check has its
    reminder at [interval] or above. *)
Definition settled (now interval : Z) (s : State) : Prop :=
  ∀ b, b ∈ fetched now interval s -> valid b = true ->
       suppressed interval (Booking.id b) (reminderMail s).

(** The state after a pass that got through all its candidates, and the
    reminders (threshold and booking) of a run of such passes. *)
Definition after_pass (now interval : Z) (s : State) : State :=
  completed interval (candidates_at now interval s) (ticked s).

Fixpoint run_sent (now : Z) (intervals : list Z) (s : State)
  : list (Z * Booking.t) :=
  match intervals with
  | [] => []
  | T :: later =>
      map (pair T) (List.filter valid (candidates_at now T s))
        ++ run_sent now later (after_pass now T s)
  end.

(** Thresholds from the largest to the smallest. *)
Definition descending (intervals : list Z) : Prop :=
  StronglySorted (λ a b, b <= a) intervals.

(** ** Sample data *)
Module Sample.

Definition jane : User.t :=
  User.mk "jane@example.com" (Some "Jane") None None (Some "UTC") None.

Definition nameless : User.t :=
  User.mk "nobody@example.com" None (Some "") None (Some "UTC") None.

Definition guests : list Attendee.t :=
  [Attendee.mk "Ann" "ann@example.com" "Europe/London" (Some "en");
   Attendee.mk "Luc" "luc@example.com" "Europe/Paris" (Some "fr");
   Attendee.mk "Eva" "eva@example.com" "Europe/Madrid" (Some "es")].

Definition now : Date := 1700000000000.

(** A pending booking created [age] minutes before [now]. *)
Definition booked (id : Z) (uid : string) (age : Z) (user : option User.t)
  : Booking.t :=
  Booking.mk id uid "Intro call" None JNull None
    1700600000000 1700601800000 (now - age * 60000) PENDING user guests None.

Definition old : Booking.t := booked 1 "bk-1" 3000 (Some jane).
Definition older : Booking.t := booked 4 "bk-4" 3100 (Some jane).
Definition recent : Booking.t := booked 2 "bk-2" 240 (Some jane).
Definition orphan : Booking.t := booked 3 "bk-3" 3000 (Some nameless).

Definition world (bookings : list Booking.t) (ledger : list ReminderMail.t)
  : State :=
  mkState bookings ledger [] [] 0 0.

(** Everything works and the clock stands still. *)
Definition reliable : Env :=
  mkEnv (Some "secret") (λ _, now) (λ _ _, true) (λ _ _, true) (λ _ k, k).

(** The transport rejects the mail for one booking. *)
Definition bouncing (uid : string) : Env :=
  mkEnv (Some "secret") (λ _, now)
    (λ _ evt, negb (String.eqb (CalendarEvent.uid evt) uid))
    (λ _ _, true) (λ _ k, k).

(** The ledger rejects every insert. *)
Definition readonly : Env :=
  mkEnv (Some "secret") (λ _, now) (λ _ _, true) (λ _ _, false) (λ _ k, k).

Definition post : NextApiRequest.t :=
  NextApiRequest.mk (Some "POST") (Some "secret") QUndefined.

(** A pending booking made an hour ago, and an accepted one made long
    ago. *)
Definition fresh : Booking.t := booked 5 "bk-5" 60 (Some jane).

Definition accepted : Booking.t :=
  Booking.mk 6 "bk-6" "Intro call" None JNull None
    1700600000000 1700601800000 (now - 3000 * 60000) ACCEPTED (Some jane)
    guests None.

(** Everything works and the clock moves on by a minute at each
    reading. *)
Definition ticking : Env :=
  mkEnv (Some "secret") (λ k, now + Z.of_nat k * 60000)
    (λ _ _, true) (λ _ _, true) (λ _ k, k).

End Sample.

(** ** Notions used to state what a run may do *)

(** The request presents the configured key: in the authorization
    header when that is truthy, else in the [apiKey] query parameter;
    with no key configured, by presenting nothing at all. *)
Definition authenticated (env : Env) (req : NextApiRequest.t) : Prop :=
  match CRON_API_KEY env with
  | Some key =>
      (truthy (NextApiRequest.authorization req) = true
       ∧ NextApiRequest.authorization req = Some key)
      ∨ (truthy (NextApiRequest.authorization req) = false
         ∧ NextApiRequest.apiKey req = QString key)
  | None =>
      truthy (NextApiRequest.authorization req) = false
      ∧ NextApiRequest.apiKey req = QUndefined
  end.

(** The booking was made at least [interval] minutes before the
    instant the pass at [interval] reads.  Each pass reads the clock
    once, so in a run over [intervals] that starts when the clock has
    been read [reads] times, the pass at position [i] reads the clock
    at index [reads + i]. *)
Definition old_enough (env : Env) (reads : nat) (intervals : list Z)
    (interval : Z) (b : Booking.t) : Prop :=
  ∃ i : nat, intervals !! i = Some interval
    ∧ Booking.createdAt b <= clock env (reads + i)%nat - interval * 60000.

(** * The booking page

    A shallow embedding of [apps/web/pages/[user]/book.tsx]: the
    server-side function that looks up the users and the event type of
    a booking link and builds the props of the page, and the component
    that chooses what the page shows. *)

(** ** JavaScript values the page looks at *)

(** Truthiness of a query value: an array is an object, hence truthy. *)
Definition query_truthy (q : QueryValue) : bool :=
  match q with
  | QUndefined => false
  | QString s => negb (String.eqb s "")
  | QArray _ => true
  end.

Definition json_truthy (v : JsonValue) : bool :=
  match v with
  | JNull => false
  | JBool b => b
  | JNumber n => negb (n =? 0)
  | JString s => negb (String.eqb s "")
  | JArray _ | JObject _ => true
  end.

(** [v[key]] for a JSON value: the member of an object, [undefined] for
    anything else.  (The keys of a stored object are distinct.) *)
Fixpoint member (key : string) (kv : list (string * JsonValue))
  : option JsonValue :=
  match kv with
  | [] => None
  | (k, v) :: kv' => if String.eqb k key then Some v else member key kv'
  end.

Definition property (key : string) (v : JsonValue) : option JsonValue :=
  match v with
  | JObject kv => member key kv
  | _ => None
  end.

(** [s.includes(pattern)] *)
Definition includes (pattern s : string) : bool :=
  match String.index 0 pattern s with
  | Some _ => true
  | None => false
  end.

(** Values without state: the result or the exception. *)
#[global] Instance Res_ret : MRet Res := λ A a, Ok a.
#[global] Instance Res_bind : MBind Res := λ A B f m,
  match m with
  | Ok a => f a
  | Failed e => Failed e
  end.

(** ** What the page reads *)

(** [context.query], as far as the function reads it. *)
Module Query.
Record t := mk {
  user : QueryValue;
  slug : QueryValue;
  count : QueryValue;
  type : QueryValue;
  rescheduleUid : QueryValue;
  bookingUid : QueryValue
}.
End Query.

(** The columns of [prisma.user] the function selects. *)
Module UserRow.
Record t := mk {
  id : Z;
  username : option string;
  name : option string;
  email : string;
  bio : option string;
  avatar : option string;
  theme : option string;
  brandColor : string;
  darkBrandColor : string;
  allowDynamicBooking : option bool;
  away : bool
}.
End UserRow.

Module Credential.
Record t := mk {
  id : Z;
  type : string;
  key : JsonValue;
  userId : option Z
}.
End Credential.

(** [RecurringEvent] of [@calcom/types/Calendar]: [count] and the other
    members, all optional ([RRule] stands for the others). *)
Module RecurringEvent.
Record t (RRule : Type) := mk {
  count : option Z;
  others : option RRule
}.
Arguments mk {RRule} count others.
Arguments count {RRule} t.
Arguments others {RRule} t.
End RecurringEvent.

(** An event type as selected from [prisma.eventType] or given by
    [getDefaultEvent]: the members the function touches, and the rest. *)
Module EventTypeRaw.
Record t (Rest RRule : Type) := mk {
  rest : Rest;
  metadata : JsonValue;
  recurringEvent : option (RecurringEvent.t RRule);
  periodStartDate : option Date;
  periodEndDate : option Date
}.
Arguments mk {Rest RRule} rest metadata recurringEvent periodStartDate periodEndDate.
Arguments rest {Rest RRule} t.
Arguments metadata {Rest RRule} t.
Arguments recurringEvent {Rest RRule} t.
Arguments periodStartDate {Rest RRule} t.
Arguments periodEndDate {Rest RRule} t.
End EventTypeRaw.

(** [eventTypeObject]: the spread of the raw event type with the
    members the function replaces. *)
Module EventTypeObject.
Record t (Rest RRule : Type) := mk {
  rest : Rest;
  metadata : JsonValue;
  recurringEvent : RecurringEvent.t RRule;
  isWeb3Active : JsonValue;
  periodStartDate : option string;
  periodEndDate : option string
}.
Arguments mk {Rest RRule} rest metadata recurringEvent isWeb3Active
  periodStartDate periodEndDate.
Arguments rest {Rest RRule} t.
Arguments metadata {Rest RRule} t.
Arguments recurringEvent {Rest RRule} t.
Arguments isWeb3Active {Rest RRule} t.
Arguments periodStartDate {Rest RRule} t.
Arguments periodEndDate {Rest RRule} t.
End EventTypeObject.

(** The two shapes of [profile]. *)
Inductive Profile :=
| GroupProfile (name : string) (slug : QueryValue)
    (allowDynamicBooking : bool) (eventName : string)
    (* image: null, theme: null, brandColor: "", darkBrandColor: "" *)
| UserProfile (name : option string) (image : option string)
    (slug : option string) (theme : option string)
    (brandColor darkBrandColor : string).
    (* eventName: null *)

(** [string | number | null] *)
Inductive RecurringCount :=
| CountNull
| CountString (s : string)
| CountNumber (n : Z).

Module BookPageProps.
Record t (Rest RRule Booked Dehydrated : Type) := mk {
  away : bool;
  profile : Profile;
  eventType : EventTypeObject.t Rest RRule;
  booking : option Booked;
  recurringEventCount : RecurringCount;
  trpcState : Dehydrated;
  isDynamicGroupBooking : bool;
  hasHashedBookingLink : bool;
  hashedLink : option string
}.
Arguments mk {Rest RRule Booked Dehydrated} away profile eventType booking
  recurringEventCount trpcState isDynamicGroupBooking hasHashedBookingLink
  hashedLink.
Arguments away {Rest RRule Booked Dehydrated} t.
Arguments profile {Rest RRule Booked Dehydrated} t.
Arguments eventType {Rest RRule Booked Dehydrated} t.
Arguments booking {Rest RRule Booked Dehydrated} t.
Arguments recurringEventCount {Rest RRule Booked Dehydrated} t.
Arguments trpcState {Rest RRule Booked Dehydrated} t.
Arguments isDynamicGroupBooking {Rest RRule Booked Dehydrated} t.
Arguments hasHashedBookingLink {Rest RRule Booked Dehydrated} t.
Arguments hashedLink {Rest RRule Booked Dehydrated} t.
End BookPageProps.

Inductive ServerSideResult (P : Type) :=
| NotFound
| Props (props : P).
Arguments NotFound {P}.
Arguments Props {P} props.

(** What the function calls and what is stored.  The helpers of
    [@calcom/lib/defaultEvents], [@lib/asStringOrNull], [@lib/getBooking]
    and [@server/lib/ssr] are not part of the sources at hand and are
    taken as they come; so are the built-ins [parseInt] ([None] for NaN)
    and [Date.prototype.toString].  A helper that throws and a query
    that is rejected give [Failed]. *)
Module PageEnv.
Record t (Rest RRule Booked Ssr Dehydrated : Type) := mk {
  parseInt : string -> option Z;
  Date_toString : Date -> string;
  asStringOrThrow : QueryValue -> Res string;
  asStringOrNull : QueryValue -> option string;
  getUsernameList : string -> list string;
  getDefaultEvent : QueryValue -> EventTypeRaw.t Rest RRule;
  getGroupName : list string -> string;
  getDynamicEventName : list string -> QueryValue -> string;
  ssrInit : Res Ssr;
  dehydrate : Ssr -> Dehydrated;
  getBooking : QueryValue -> Res (option Booked);
  user_table : list UserRow.t;
  credential_table : list Credential.t;
  eventType_findUnique : option Z -> Res (option (EventTypeRaw.t Rest RRule))
}.
Arguments mk {Rest RRule Booked Ssr Dehydrated}.
Arguments parseInt {Rest RRule Booked Ssr Dehydrated} t.
Arguments Date_toString {Rest RRule Booked Ssr Dehydrated} t.
Arguments asStringOrThrow {Rest RRule Booked Ssr Dehydrated} t.
Arguments asStringOrNull {Rest RRule Booked Ssr Dehydrated} t.
Arguments getUsernameList {Rest RRule Booked Ssr Dehydrated} t.
Arguments getDefaultEvent {Rest RRule Booked Ssr Dehydrated} t.
Arguments getGroupName {Rest RRule Booked Ssr Dehydrated} t.
Arguments getDynamicEventName {Rest RRule Booked Ssr Dehydrated} t.
Arguments ssrInit {Rest RRule Booked Ssr Dehydrated} t.
Arguments dehydrate {Rest RRule Booked Ssr Dehydrated} t.
Arguments getBooking {Rest RRule Booked Ssr Dehydrated} t.
Arguments user_table {Rest RRule Booked Ssr Dehydrated} t.
Arguments credential_table {Rest RRule Booked Ssr Dehydrated} t.
Arguments eventType_findUnique {Rest RRule Booked Ssr Dehydrated} t.
End PageEnv.

(** ** The server-side function and the component *)

(** [!b] is false only for [true]. *)
Definition bool_truthy (b : option bool) : bool :=
  match b with
  | Some true => true
  | _ => false
  end.

Section BookPage.
Context {Rest RRule Booked Ssr Dehydrated : Type}.
Variable env : PageEnv.t Rest RRule Booked Ssr Dehydrated.

(** [prisma.user.findMany({ where: { username: { in: usernameList } } })] *)
Definition user_findMany (usernameList : list string) : list UserRow.t :=
  List.filter
    (λ u, match UserRow.username u with
          | Some n => existsb (String.eqb n) usernameList
          | None => false
          end)
    (PageEnv.user_table env).

(** [prisma.credential.findMany({ where: { userId: { in: ids } } })] *)
Definition credential_findMany (ids : list Z) : list Credential.t :=
  List.filter
    (λ c, match Credential.userId c with
          | Some i => existsb (Z.eqb i) ids
          | None => false
          end)
    (PageEnv.credential_table env).

(** The member [isWeb3Active] of [eventType]. *)
Definition isWeb3Active_of (credentials : list Credential.t) : JsonValue :=
  match List.find (λ credential, includes "_web3" (Credential.type credential))
          credentials with
  | Some web3Credentials =>
      if json_truthy (Credential.key web3Credentials)
      then match property "isWeb3Active" (Credential.key web3Credentials) with
           | Some v => if json_truthy v then v else JBool false
           | None => JBool false
           end
      else JBool false
  | None => JBool false
  end.

(** [(count && query && (parseInt(query) <= count ? query : count)) || null] *)
Definition recurringEventCount_of (count : option Z)
    (recurringEventCountQuery : option string) : RecurringCount :=
  match count with
  | Some c =>
      if c =? 0 then CountNull
      else match recurringEventCountQuery with
           | Some q =>
               if String.eqb q "" then CountNull
               else match PageEnv.parseInt env q with
                    | Some n => if n <=? c then CountString q else CountNumber c
                    | None => CountNumber c
                    end
           | None => CountNull
           end
  | None => CountNull
  end.

(** [users.map((user) => user.name || "")] *)
Definition names_of (users : list UserRow.t) : list string :=
  map (λ user, nullish (js_or (UserRow.name user) (Some "")) "") users.

Definition profile_of (isDynamicGroupBooking : bool) (user : UserRow.t)
    (users : list UserRow.t) (eventTypeSlug : QueryValue) : Profile :=
  let dynamicNames := if isDynamicGroupBooking then names_of users else [] in
  if isDynamicGroupBooking
  then GroupProfile
         (PageEnv.getGroupName env dynamicNames)
         eventTypeSlug
         (negb (existsb (λ user, negb (bool_truthy (UserRow.allowDynamicBooking user)))
                  users))
         (PageEnv.getDynamicEventName env dynamicNames eventTypeSlug)
  else UserProfile
         (js_or (UserRow.name user) (UserRow.username user))
         (UserRow.avatar user)
         (UserRow.username user)
         (UserRow.theme user)
         (UserRow.brandColor user)
         (UserRow.darkBrandColor user).

Definition eventTypeObject_of (eventTypeRaw : EventTypeRaw.t Rest RRule)
    (credentials : list Credential.t) : EventTypeObject.t Rest RRule :=
  EventTypeObject.mk
    (EventTypeRaw.rest eventTypeRaw)
    (if json_truthy (EventTypeRaw.metadata eventTypeRaw)
     then EventTypeRaw.metadata eventTypeRaw else JObject [])
    (match EventTypeRaw.recurringEvent eventTypeRaw with
     | Some r => r
     | None => RecurringEvent.mk None None
     end)
    (isWeb3Active_of credentials)
    (option_map (PageEnv.Date_toString env) (EventTypeRaw.periodStartDate eventTypeRaw))
    (option_map (PageEnv.Date_toString env) (EventTypeRaw.periodEndDate eventTypeRaw)).

Definition getServerSideProps (context : Query.t)
  : Res (ServerSideResult (BookPageProps.t Rest RRule Booked Dehydrated)) :=
  ssr ← PageEnv.ssrInit env;
  user ← PageEnv.asStringOrThrow env (Query.user context);
  let usernameList := PageEnv.getUsernameList env user in
  let eventTypeSlug := Query.slug context in
  let recurringEventCountQuery := PageEnv.asStringOrNull env (Query.count context) in
  let users := user_findMany usernameList in
  match users with
  | [] => mret NotFound
  | user :: _ =>
      let isDynamicGroupBooking := (1 <? length users)%nat in
      if (negb isDynamicGroupBooking && negb (query_truthy (Query.type context)))
         || (isDynamicGroupBooking && negb (query_truthy eventTypeSlug))
      then mret NotFound
      else
        eventTypeRaw ←
          (if (1 <? length usernameList)%nat
           then mret (Some (PageEnv.getDefaultEvent env eventTypeSlug))
           else id ← PageEnv.asStringOrThrow env (Query.type context);
                PageEnv.eventType_findUnique env (PageEnv.parseInt env id));
        match eventTypeRaw with
        | None => mret NotFound
        | Some eventTypeRaw =>
            let credentials := credential_findMany (map UserRow.id users) in
            let eventTypeObject := eventTypeObject_of eventTypeRaw credentials in
            booking ←
              (if query_truthy (Query.rescheduleUid context)
                  || query_truthy (Query.bookingUid context)
               then PageEnv.getBooking env
                      (if query_truthy (Query.rescheduleUid context)
                       then Query.rescheduleUid context
                       else Query.bookingUid context)
               else mret None);
            let profile := profile_of isDynamicGroupBooking user users eventTypeSlug in
            let recurringEventCount :=
              recurringEventCount_of
                (RecurringEvent.count (EventTypeObject.recurringEvent eventTypeObject))
                recurringEventCountQuery in
            mret (Props (BookPageProps.mk (UserRow.away user) profile
                           eventTypeObject booking recurringEventCount
                           (PageEnv.dehydrate env ssr) isDynamicGroupBooking
                           false None))
        end
  end.
End BookPage.

(** The event type the function goes on with: the default event of a
    link with several names, else the stored event type with the id of
    [type]. *)
Definition eventTypeRaw_of {Rest RRule Booked Ssr Dehydrated : Type}
    (env : PageEnv.t Rest RRule Booked Ssr Dehydrated)
    (context : Query.t) (name : string)
  : Res (option (EventTypeRaw.t Rest RRule)) :=
  if (1 <? length (PageEnv.getUsernameList env name))%nat
  then Ok (Some (PageEnv.getDefaultEvent env (Query.slug context)))
  else match PageEnv.asStringOrThrow env (Query.type context) with
       | Ok id => PageEnv.eventType_findUnique env (PageEnv.parseInt env id)
       | Failed e => Failed e
       end.

(** What the page shows. *)
Inductive View (P : Type) :=
| AwayNotice                      (* t("user_away") *)
| UnavailableNotice               (* t("unavailable") *)
| BookingPageView (props : P).    (* <BookingPage {...props} /> *)
Arguments AwayNotice {P}.
Arguments UnavailableNotice {P}.
Arguments BookingPageView {P} props.

(** [props.profile.allowDynamicBooking], undefined for a single user. *)
Definition profile_allowDynamicBooking (p : Profile) : bool :=
  match p with
  | GroupProfile _ _ allowDynamicBooking _ => allowDynamicBooking
  | UserProfile _ _ _ _ _ _ => false
  end.

Definition Book {Rest RRule Booked Dehydrated : Type}
    (props : BookPageProps.t Rest RRule Booked Dehydrated)
  : View (BookPageProps.t Rest RRule Booked Dehydrated) :=
  if BookPageProps.away props then AwayNotice
  else if BookPageProps.isDynamicGroupBooking props
          && negb (profile_allowDynamicBooking (BookPageProps.profile props))
  then UnavailableNotice
  else BookingPageView props.

(** ** Sample data for the booking page *)
Module SamplePage.

(** Enough of [parseInt] for a string of decimal digits. *)
Definition parse_digits (s : string) : option Z :=
  match list_ascii_of_string s with
  | [] => None
  | l => match JsDate.number (length l) 0 l with
         | Some (n, _) => Some n
         | None => None
         end
  end.

Definition ann : UserRow.t :=
  UserRow.mk 1 (Some "ann") (Some "Ann") "ann@example.com" None None None
    "#292929" "#fafafa" (Some true) false.

Definition bob : UserRow.t :=
  UserRow.mk 2 (Some "bob") None "bob@example.com" None None None
    "#292929" "#fafafa" (Some false) true.

Definition weekly : EventTypeRaw.t unit unit :=
  EventTypeRaw.mk () JNull (Some (RecurringEvent.mk (Some 12) None)) None None.

Definition env : PageEnv.t unit unit unit unit unit :=
  PageEnv.mk parse_digits (λ _, "")
    (λ q, match q with
          | QString s => Ok s
          | _ => Failed (Rejected "asStringOrThrow")
          end)
    (λ q, match q with QString s => Some s | _ => None end)
    (λ s, if String.eqb s "ann+bob" then ["ann"; "bob"]
          else if String.eqb s "ann+zed" then ["ann"; "zed"] else [s])
    (λ _, EventTypeRaw.mk () JNull None None None)
    (String.concat ", ")
    (λ _ _, "Dynamic collective")
    (Ok ()) (λ _, ()) (λ _, Ok None)
    [ann; bob] []
    (λ i, match i with
          | Some 7 => Ok (Some weekly)
          | _ => Ok None
          end).

Definition link (user : string) (slug type count : QueryValue) : Query.t :=
  Query.mk (QString user) slug count type QUndefined QUndefined.

Definition calendar : Credential.t :=
  Credential.mk 10 "google_calendar" (JObject []) (Some 1).

Definition dormant : Credential.t :=
  Credential.mk 11 "metamask_web3" (JObject [("isWeb3Active", JBool false)])
    (Some 1).

Definition active : Credential.t :=
  Credential.mk 12 "metamask_web3" (JObject [("isWeb3Active", JBool true)])
    (Some 1).

Definition foreign : Credential.t :=
  Credential.mk 13 "metamask_web3" (JObject [("isWeb3Active", JBool true)])
    (Some 2).

(** The sample environment with credentials stored and bookings that
    are found by their uid. *)
Definition desk (credentials : list Credential.t)
  : PageEnv.t unit unit string unit unit :=
  PageEnv.mk (PageEnv.parseInt env) (PageEnv.Date_toString env)
    (PageEnv.asStringOrThrow env) (PageEnv.asStringOrNull env)
    (PageEnv.getUsernameList env) (PageEnv.getDefaultEvent env)
    (PageEnv.getGroupName env) (PageEnv.getDynamicEventName env)
    (Ok ()) (λ _, ())
    (λ q, match q with
          | QString uid => Ok (Some uid)
          | _ => Failed (Rejected "getBooking")
          end)
    [ann; bob] credentials (PageEnv.eventType_findUnique env).

End SamplePage.

(** * Properties *)

(** ** [toISOString] on some instants *)

Example toISOString_epoch :
  JsDate.toISOString 0 = "1970-01-01T00:00:00.000Z".
Proof. reflexivity. Qed.

Example toISOString_leap_day :
  JsDate.toISOString 1709164799999 = "2024-02-28T23:59:59.999Z"
  /\ JsDate.toISOString 1709164800000 = "2024-02-29T00:00:00.000Z"
  /\ JsDate.toISOString 1654070400123 = "2022-06-01T08:00:00.123Z".
Proof. repeat split; reflexivity. Qed.

Example toISOString_before_year_0 :
  JsDate.toISOString (-62198755200000) = "-000001-01-01T00:00:00.000Z"
  /\ JsDate.is_iso8601 (JsDate.toISOString (-62198755200000)) = true
  /\ JsDate.is_iso8601 "2022-13-01T08:00:00.123Z" = false.
Proof. repeat split; reflexivity. Qed.

(** ** [Promise.all] returns the values in the order of the promises *)
Section PromiseAllFacts.
Context {A : Type}.
Implicit Types (promises : list A) (pending : list (nat * A))
  (values : list (option A)).

Lemma tracks_start promises :
  tracks promises (imap pair promises) (replicate (length promises) None).
Proof.
  assert (Hin : ∀ i v, (i, v) ∈ imap pair promises → promises !! i = Some v).
  { intros i v [k Hk]%list_elem_of_lookup.
    rewrite list_lookup_imap in Hk.
    destruct (promises !! k) eqn:E; by simplify_eq/=. }
  split; [apply length_replicate |]. split; [| split].
  - intros i v Hi%Hin. split; [done |].
    apply lookup_replicate_2. by eapply lookup_lt_Some.
  - intros i v Hi. left. apply list_elem_of_lookup. exists i.
    by rewrite list_lookup_imap, Hi.
  - apply NoDup_alt. intros i j x.
    rewrite !list_lookup_fmap, !list_lookup_imap.
    destruct (promises !! i), (promises !! j); naive_solver.
Qed.

Lemma tracks_fulfil promises l1 l2 i v values :
  tracks promises (l1 ++ (i, v) :: l2) values →
  tracks promises (l1 ++ l2) (<[i := Some v]> values).
Proof.
  intros (Hlen & Hpend & Hall & Hnd).
  assert (Hsub : ∀ x, x ∈ l1 ++ l2 → x ∈ l1 ++ (i, v) :: l2).
  { intros x. rewrite !elem_of_app, elem_of_cons. tauto. }
  assert (Hi : promises !! i = Some v).
  { apply Hpend. rewrite elem_of_app, elem_of_cons. tauto. }
  rewrite fmap_app, fmap_cons in Hnd. simpl in Hnd.
  apply NoDup_app in Hnd as (Hnd1 & Hdisj & Hnd2).
  apply NoDup_cons in Hnd2 as [Hnot Hnd2].
  assert (Hfresh : ∀ j w, (j, w) ∈ l1 ++ l2 → j ≠ i).
  { intros j w Hj ->. apply elem_of_app in Hj as [Hj | Hj].
    - apply (Hdisj i); [by apply (list_elem_of_fmap_2 fst _ (i, w)) | left].
    - apply Hnot. by apply (list_elem_of_fmap_2 fst _ (i, w)). }
  split; [by rewrite length_insert |]. split; [| split].
  - intros j w Hj. split; [by apply Hpend, Hsub |].
    rewrite list_lookup_insert_ne; [by apply (Hpend j w), Hsub |].
    intros ->. by eapply Hfresh.
  - intros j w Hj. destruct (decide (j = i)) as [-> | Hne].
    + right. rewrite list_lookup_insert_eq; [congruence |].
      rewrite Hlen. by eapply lookup_lt_Some.
    + rewrite list_lookup_insert_ne by done.
      destruct (Hall j w Hj) as [Hin | ?]; [left | by right].
      rewrite elem_of_app, elem_of_cons in Hin. rewrite elem_of_app.
      destruct Hin as [? | [? | ?]]; [by left | congruence | by right].
  - rewrite fmap_app. apply NoDup_app. split; [done |]. split; [| done].
    intros x Hx1 Hx2. apply (Hdisj x Hx1). by right.
Qed.

Lemma settle_step choose step n pending values :
  (0 < length pending)%nat →
  ∃ l1 i v l2, pending = l1 ++ (i, v) :: l2
    ∧ settle choose step (S n) pending values
      = settle choose (S step) n (l1 ++ l2) (<[i := Some v]> values).
Proof.
  intros Hpos. simpl.
  destruct (lookup_lt_is_Some_2 pending (choose step mod length pending)%nat)
    as [[i v] Hk]; [apply Nat.mod_upper_bound; lia |].
  exists (take (choose step mod length pending)%nat pending), i, v,
    (drop (S (choose step mod length pending)%nat) pending).
  split; [by rewrite take_drop_middle |].
  by rewrite Hk, delete_take_drop.
Qed.

(** Once every promise has been fulfilled, the slots hold the values
    in the order of the promises, whichever order they were fulfilled
    in. *)
Lemma settle_all choose promises n : ∀ step pending values,
  tracks promises pending values → length pending = n →
  settle choose step n pending values = Some <$> promises.
Proof.
  induction n as [| n IH]; intros step pending values Htr Hn.
  - destruct pending; [| done]. destruct Htr as (Hlen & _ & Hall & _).
    simpl. apply list_eq. intros i. rewrite list_lookup_fmap.
    destruct (promises !! i) as [v |] eqn:E; simpl.
    + destruct (Hall i v E) as [Hin | ?]; [| done]. by apply elem_of_nil in Hin.
    + apply lookup_ge_None. apply lookup_ge_None in E. lia.
  - destruct (settle_step choose step n pending values)
      as (l1 & i & v & l2 & -> & ->); [lia |].
    apply IH; [by apply tracks_fulfil |].
    rewrite length_app in *. simpl in Hn. lia.
Qed.

(** While a promise is still pending, a slot is still empty. *)
Lemma settle_some choose promises n : ∀ step pending values,
  tracks promises pending values → (n < length pending)%nat →
  ∃ i, settle choose step n pending values !! i = Some None.
Proof.
  induction n as [| n IH]; intros step pending values Htr Hn.
  - destruct pending as [| [i v] pending]; [simpl in Hn; lia |].
    exists i. apply (proj1 (proj2 Htr) i v). by left.
  - destruct (settle_step choose step n pending values)
      as (l1 & i & v & l2 & -> & ->); [lia |].
    apply IH; [by apply tracks_fulfil |].
    rewrite length_app in *. simpl in Hn. lia.
Qed.

Lemma Promise_all_order choose promises :
  Promise_all choose promises = Some promises.
Proof.
  unfold Promise_all.
  rewrite (settle_all choose promises); [| apply tracks_start | apply length_imap].
  by apply mapM_fmap_Some.
Qed.

Lemma Promise_all_waits choose promises n :
  (n < length promises)%nat →
  mapM id (settle choose 0 n (imap pair promises)
             (replicate (length promises) None)) = None.
Proof.
  intros Hn.
  destruct (settle_some choose promises n 0 (imap pair promises)
              (replicate (length promises) None)) as [i Hi];
    [apply tracks_start | by rewrite length_imap |].
  apply mapM_None_2, Exists_exists. exists None. split; [| done].
  by eapply list_elem_of_lookup_2.
Qed.
End PromiseAllFacts.

(** ** The loop body and the loops, step by step *)

Lemma elem_of_filter_bool {A} (f : A -> bool) (l : list A) x :
  x ∈ List.filter f l ↔ f x = true ∧ x ∈ l.
Proof. rewrite !list_elem_of_In, filter_In. tauto. Qed.

Lemma existsb_elem_of {A} (f : A -> bool) (l : list A) :
  existsb f l = true ↔ ∃ x, x ∈ l ∧ f x = true.
Proof.
  rewrite existsb_exists. by setoid_rewrite list_elem_of_In.
Qed.

Lemma payload_valid b : valid b = true ↔ is_Some (payload b).
Proof.
  unfold valid, payload. destruct (required b) as [[[u n] tz] |].
  - split; [by eexists | done].
  - split; [done | by intros [? ?]].
Qed.

Lemma payload_required b : payload b = None ↔ required b = None.
Proof.
  unfold payload. by destruct (required b) as [[[u n] tz] |].
Qed.

Lemma remind_skip env interval b s :
  required b = None ->
  remind env interval b s = (Ok (), logged (skipped b) s).
Proof. intros H. unfold remind. by rewrite H. Qed.

Lemma remind_go env interval b s evt :
  payload b = Some evt ->
  remind env interval b s =
    if delivers env s evt
    then if persists env (mailed evt s) (reminder interval b)
         then (Ok (), after_remind interval b s)
         else (Failed (Rejected "prisma.reminderMail.create"), mailed evt s)
    else (Failed (Rejected "sendOrganizerRequestReminderEmail"), s).
Proof.
  intros H. unfold after_remind. rewrite H. unfold payload in H. unfold remind.
  destruct (required b) as [[[u n] tz] |]; [| done]. injection H as <-.
  unfold mbind, M_bind, Promise_all_M. rewrite Promise_all_order. simpl.
  unfold sendOrganizerRequestReminderEmail, reminderMail_create.
  destruct (delivers env s _); [| done].
  fold (reminder interval b). by destruct (persists env _ _).
Qed.

Lemma for_of_cons {A} (x : A) l body s :
  for_of (x :: l) body s =
    match body x s with
    | (Ok _, s') => for_of l body s'
    | (Failed e, s') => (Failed e, s')
    end.
Proof. reflexivity. Qed.

Lemma loop_outcome_cons env interval b l s res s' :
  loop_outcome env interval l (after_remind interval b s) res s' ->
  loop_outcome env interval (b :: l) s res s'.
Proof.
  intros H. destruct H as [| l1 b' l2 evt -> ? ? | l1 b' l2 evt -> ? ? ?].
  - apply (loop_done env interval (b :: l) s).
  - by apply (loop_send_failed env interval _ s (b :: l1) b' l2 evt).
  - by apply (loop_write_failed env interval _ s (b :: l1) b' l2 evt).
Qed.

Lemma for_of_remind_outcome env interval l : ∀ s,
  loop_outcome env interval l s
    (for_of l (remind env interval) s).1 (for_of l (remind env interval) s).2.
Proof.
  induction l as [| b l IH]; intros s.
  - apply loop_done.
  - rewrite for_of_cons. destruct (payload b) as [evt |] eqn:E.
    + rewrite (remind_go _ _ _ _ evt E).
      destruct (delivers env s evt) eqn:Ed.
      * destruct (persists env (mailed evt s) (reminder interval b)) eqn:Ep.
        -- apply loop_outcome_cons, IH.
        -- by apply (loop_write_failed env interval _ s [] b l evt).
      * by apply (loop_send_failed env interval _ s [] b l evt).
    + rewrite remind_skip by by apply payload_required.
      replace (logged (skipped b) s) with (after_remind interval b s)
        by (unfold after_remind; by rewrite E).
      apply loop_outcome_cons, IH.
Qed.

Lemma pass_unfold env interval s :
  pass env interval s =
    for_of (candidates_at (clock env (clockReads s)) interval s)
      (remind env interval) (ticked s).
Proof. reflexivity. Qed.

Lemma dispatch_unfold env intervals s :
  dispatch env intervals s =
    match for_of intervals (pass env) (counting 0 s) with
    | (Ok _, s') =>
        (Ok (mkResponse 200 (NotificationsSent (notificationsSent s'))), s')
    | (Failed e, s') => (Failed e, s')
    end.
Proof.
  unfold dispatch, mbind, M_bind, set_notificationsSent. simpl.
  by destruct (for_of intervals (pass env) (counting 0 s)) as [[[] |] ?].
Qed.

Lemma completed_app interval l1 l2 s :
  completed interval (l1 ++ l2) s = completed interval l2 (completed interval l1 s).
Proof. revert s. induction l1 as [| b l1 IH]; intros s; simpl; [done | apply IH]. Qed.

Lemma completed_frame interval l : ∀ s,
  booking (completed interval l s) = booking s
  ∧ clockReads (completed interval l s) = clockReads s.
Proof.
  induction l as [| b l IH]; intros s; simpl; [done |].
  destruct (IH (after_remind interval b s)) as [-> ->].
  unfold after_remind. by destruct (payload b).
Qed.

Lemma completed_outbox interval l : ∀ s,
  outbox (completed interval l s) = outbox s ++ omap payload l.
Proof.
  induction l as [| b l IH]; intros s; simpl; [by rewrite app_nil_r |].
  rewrite IH. unfold after_remind.
  destruct (payload b); simpl; [by rewrite <- app_assoc | done].
Qed.

Lemma completed_reminderMail interval l : ∀ s,
  reminderMail (completed interval l s)
  = reminderMail s ++ map (reminder interval) (List.filter valid l).
Proof.
  induction l as [| b l IH]; intros s; simpl; [by rewrite app_nil_r |].
  rewrite IH. unfold after_remind, valid, payload.
  destruct (required b) as [[[u n] tz] |]; simpl; [by rewrite <- app_assoc | done].
Qed.

Lemma completed_notificationsSent interval l : ∀ s,
  notificationsSent (completed interval l s)
  = notificationsSent s + Z.of_nat (length (List.filter valid l)).
Proof.
  induction l as [| b l IH]; intros s; simpl; [lia |].
  rewrite IH. unfold after_remind, valid, payload.
  destruct (required b) as [[[u n] tz] |]; simpl; lia.
Qed.

Lemma completed_console interval l : ∀ s,
  console (completed interval l s)
  = console s ++ map skipped (List.filter (λ b, negb (valid b)) l).
Proof.
  induction l as [| b l IH]; intros s; simpl; [by rewrite app_nil_r |].
  rewrite IH. unfold after_remind, valid, payload.
  destruct (required b) as [[[u n] tz] |]; simpl; [done | by rewrite <- app_assoc].
Qed.

(** ** The queries and the candidates of a pass *)

Lemma BookingStatus_eqb_eq a b : BookingStatus_eqb a b = true ↔ a = b.
Proof. destruct a, b; simpl; split; congruence. Qed.

Lemma ReminderType_eqb_eq a b : ReminderType_eqb a b = true ↔ a = b.
Proof.
  destruct a as [| x], b as [| y]; simpl; try (split; congruence).
  rewrite String.eqb_eq. split; congruence.
Qed.

Lemma fetched_spec now interval s b :
  b ∈ fetched now interval s
  ↔ b ∈ booking s ∧ Booking.status b = PENDING
    ∧ Booking.createdAt b <= now - interval * 60000.
Proof.
  unfold fetched, pending_since.
  rewrite elem_of_filter_bool, andb_true_iff, BookingStatus_eqb_eq, Z.leb_le.
  replace (now + - interval * 60000) with (now - interval * 60000) by lia.
  tauto.
Qed.

Lemma reminded_spec ids interval r :
  reminded ids interval r = true
  ↔ suppresses interval (ReminderMail.referenceId r) r
    ∧ ReminderMail.referenceId r ∈ ids.
Proof.
  unfold reminded, suppresses.
  rewrite !andb_true_iff, ReminderType_eqb_eq, Z.leb_le, existsb_elem_of.
  split.
  - intros [[? (x & ? & ->%Z.eqb_eq)] ?]. done.
  - intros [(? & _ & ?) ?]. repeat split; try done.
    eexists. split; [done | apply Z.eqb_refl].
Qed.

(** The inner loop leaves a fetched booking out exactly when the ledger
    has a row of this kind for it with at least the elapsed minutes of
    the pass. *)
Lemma excluded_iff_suppressed now interval s b :
  b ∈ fetched now interval s ->
  existsb (λ r, ReminderMail.referenceId r =? Booking.id b)
    (reminders_of now interval s) = true
  ↔ suppressed interval (Booking.id b) (reminderMail s).
Proof.
  intros Hb. rewrite existsb_elem_of. unfold suppressed, reminders_of. split.
  - intros (r & Hr & He%Z.eqb_eq).
    apply elem_of_filter_bool in Hr as [[Hs _]%reminded_spec ?].
    rewrite He in Hs. by exists r.
  - intros (r & Hr & Hs). exists r.
    destruct Hs as (Ht & Hid & Hle). split; [| by apply Z.eqb_eq].
    apply elem_of_filter_bool. split; [| done].
    apply reminded_spec. rewrite Hid. split; [done |].
    by apply (list_elem_of_fmap_2 Booking.id).
Qed.

Lemma candidates_at_spec now interval s b :
  b ∈ candidates_at now interval s
  ↔ b ∈ fetched now interval s
    ∧ ¬ suppressed interval (Booking.id b) (reminderMail s).
Proof.
  unfold candidates_at, candidates. rewrite elem_of_filter_bool.
  split.
  - intros [Hn Hb]. split; [done |].
    rewrite <- (excluded_iff_suppressed now) by done.
    by destruct (existsb _ _).
  - intros [Hb Hn]. split; [| done].
    rewrite <- (excluded_iff_suppressed now) in Hn by done.
    by destruct (existsb _ _).
Qed.

Lemma suppressed_mono interval interval' id ledger ledger' :
  interval' <= interval ->
  (∀ r, r ∈ ledger -> r ∈ ledger') ->
  suppressed interval id ledger -> suppressed interval' id ledger'.
Proof.
  intros Hle Hsub (r & Hr & Ht & Hid & He).
  exists r. split; [by apply Hsub |]. repeat split; try done. lia.
Qed.

(** ** The check of the organizer data *)






(** ** The two guards of the handler *)

Lemma dispatch_status env intervals s resp s' :
  dispatch env intervals s = (Ok resp, s') -> status resp = 200.
Proof.
  rewrite dispatch_unfold.
  destruct (for_of intervals (pass env) (counting 0 s)) as [[[] |] ?];
    intros H; by simplify_eq.
Qed.

(** C6, as the handler has it.  A request that passes the check of the
    key and whose method is not POST is answered 405 with the message
    "Invalid method", and nothing is read, sent or written. *)
Theorem C6_authenticated_non_post_405 env req s :
  strict_ne (CRON_API_KEY env) (header_or_query req) = false ->
  NextApiRequest.method req ≠ Some "POST" ->
  handler env req s = (Ok (mkResponse 405 (Message "Invalid method")), s).
Proof.
  intros Hkey Hm. unfold handler. rewrite Hkey.
  by rewrite bool_decide_eq_false_2.
Qed.

Lemma C6_authenticated_non_post_405_witness :
  handler Sample.reliable
    (NextApiRequest.mk (Some "GET") (Some "secret") QUndefined)
    (Sample.world [Sample.old] [])
  = (Ok (mkResponse 405 (Message "Invalid method")), Sample.world [Sample.old] []).
Proof.
  apply (C6_authenticated_non_post_405 Sample.reliable
           (NextApiRequest.mk (Some "GET") (Some "secret") QUndefined)).
  - reflexivity.
  - simpl. congruence.
Defined.

(** C6, as stated, fails: the key is checked first, so a request that
    is not a POST and carries a wrong key is answered 401, not 405. *)
Lemma C6_counterexample :
  let req := NextApiRequest.mk (Some "GET") (Some "guess") QUndefined in
  NextApiRequest.method req ≠ Some "POST"
  ∧ handler Sample.reliable req (Sample.world [Sample.old] [])
    = (Ok (mkResponse 401 (Message "Not authenticated")),
       Sample.world [Sample.old] []).
Proof. split; [simpl; congruence | reflexivity]. Qed.

(** C10. With CRON_API_KEY unset, a request with neither an authorization
    header nor an apiKey query parameter passes the check of the key
    (undefined is compared with undefined): it is handled like any
    authenticated request and is never answered 401. *)
Theorem C10_unset_key_lets_keyless_request_in env req s :
  CRON_API_KEY env = None ->
  NextApiRequest.authorization req = None ->
  NextApiRequest.apiKey req = QUndefined ->
  handler env req s
  = (if bool_decide (NextApiRequest.method req = Some "POST")
     then dispatch env reminderIntervalMinutes s
     else (Ok (mkResponse 405 (Message "Invalid method")), s))
  ∧ ∀ resp s', handler env req s = (Ok resp, s') -> status resp ≠ 401.
Proof.
  intros Hk Ha Hq.
  assert (Heq : handler env req s
    = (if bool_decide (NextApiRequest.method req = Some "POST")
       then dispatch env reminderIntervalMinutes s
       else (Ok (mkResponse 405 (Message "Invalid method")), s))).
  { unfold handler, header_or_query. rewrite Hk, Ha, Hq. simpl.
    by destruct (bool_decide _). }
  split; [done |]. intros resp s'. rewrite Heq.
  destruct (bool_decide _).
  - intros ->%dispatch_status. done.
  - intros [= <- <-]. done.
Qed.

Lemma C10_unset_key_lets_keyless_request_in_witness :
  let env := mkEnv None (λ _, Sample.now) (λ _ _, true) (λ _ _, true) (λ _ k, k) in
  let req := NextApiRequest.mk (Some "POST") None QUndefined in
  (handler env req (Sample.world [Sample.old] [])).1
  = Ok (mkResponse 200 (NotificationsSent 1)).
Proof.
  intros env req.
  rewrite (proj1 (C10_unset_key_lets_keyless_request_in env req
                    (Sample.world [Sample.old] []) eq_refl eq_refl eq_refl)).
  reflexivity.
Defined.

(** ** [toISOString] writes ISO 8601 *)
Section IsoFacts.
Import JsDate.

Lemma civil_range days :
  let '(y, m, d) := civil days in
  1 <= m <= 12 ∧ 1 <= d <= 31.
Proof.
  unfold civil.
  set (doe := (days + 719468) mod 146097).
  assert (Hdoe : 0 <= doe < 146097) by (apply Z.mod_pos_bound; lia).
  clearbody doe.
  set (yoe := (doe - doe / 1460 + doe / 36524 - doe / 146096) / 365).
  set (doy := doe - (365 * yoe + yoe / 4 - yoe / 100)).
  assert (Hdoy : 0 <= doy <= 365).
  { subst doy yoe. Z.div_mod_to_equations. lia. }
  clearbody doy.
  set (mp := (5 * doy + 2) / 153).
  assert (Hmp : 0 <= mp <= 11) by (subst mp; Z.div_mod_to_equations; lia).
  assert (Hd : 1 <= doy - (153 * mp + 2) / 5 + 1 <= 31).
  { subst mp. Z.div_mod_to_equations. lia. }
  split; [| done].
  destruct (mp <? 10) eqn:E; [apply Z.ltb_lt in E | apply Z.ltb_ge in E]; lia.
Qed.

Lemma digit_value_digit n : digit_value (digit n) = Some (n mod 10).
Proof.
  unfold digit. 
  assert (Hn : 0 <= n mod 10 < 10) by (apply Z.mod_pos_bound; lia).
  generalize dependent (n mod 10). intros k Hk.
  assert (Hc : k = 0 ∨ k = 1 ∨ k = 2 ∨ k = 3 ∨ k = 4 ∨ k = 5 ∨ k = 6
          ∨ k = 7 ∨ k = 8 ∨ k = 9) by lia.
  repeat (destruct Hc as [-> | Hc]; [reflexivity |]). by subst.
Qed.

Lemma digit_not_sign n :
  Ascii.eqb (digit n) "+" || Ascii.eqb (digit n) "-" = false.
Proof.
  unfold digit. 
  assert (Hn : 0 <= n mod 10 < 10) by (apply Z.mod_pos_bound; lia).
  generalize dependent (n mod 10). intros k Hk.
  assert (Hc : k = 0 ∨ k = 1 ∨ k = 2 ∨ k = 3 ∨ k = 4 ∨ k = 5 ∨ k = 6
          ∨ k = 7 ∨ k = 8 ∨ k = 9) by lia.
  repeat (destruct Hc as [-> | Hc]; [reflexivity |]). by subst.
Qed.

Lemma number_last w : ∀ acc l,
  number (S w) acc l =
    match number w acc l with
    | Some (a, c :: l') =>
        match digit_value c with
        | Some v => Some (10 * a + v, l')
        | None => None
        end
    | _ => None
    end.
Proof.
  induction w as [| w IH]; intros acc l.
  - destruct l as [| c l]; [done |]. simpl. by destruct (digit_value c).
  - destruct l as [| c l]; [done |].
    change (number (S (S w)) acc (c :: l))
      with (match digit_value c with
            | Some v => number (S w) (10 * acc + v) l
            | None => None
            end).
    change (number (S w) acc (c :: l))
      with (match digit_value c with
            | Some v => number w (10 * acc + v) l
            | None => None
            end).
    destruct (digit_value c); [apply IH | done].
Qed.

Lemma number_pad w : ∀ acc n rest,
  number w acc (pad w n ++ rest)
  = Some (acc * 10 ^ Z.of_nat w + n mod 10 ^ Z.of_nat w, rest).
Proof.
  induction w as [| w IH]; intros acc n rest.
  - simpl. rewrite Z.mod_1_r. do 2 f_equal. lia.
  - rewrite number_last. cbn [pad]. rewrite <- app_assoc, IH. cbn [app].
    rewrite digit_value_digit. do 2 f_equal.
    rewrite Nat2Z.inj_succ, Z.pow_succ_r by lia.
    rewrite (Z.rem_mul_r n 10 (10 ^ Z.of_nat w)) by lia. lia.
Qed.

Lemma field_ok (w : nat) lo hi n rest :
  lo <= n <= hi -> 0 <= n < 10 ^ Z.of_nat w ->
  within lo hi (number w 0 (pad w n ++ rest)) = Some rest.
Proof.
  intros Hr Hw. rewrite number_pad, Z.mod_small by done. unfold within.
  replace (0 * 10 ^ Z.of_nat w + n) with n by lia.
  destruct (Z.leb_spec lo n), (Z.leb_spec n hi); simpl; try done; lia.
Qed.

Lemma year_ok y rest :
  within 0 999999 (year (year_digits y ++ rest)) = Some rest.
Proof.
  assert (Hsix : ∀ n l, 0 <= n ->
    within 0 999999 (number 6 0 (pad 6 n ++ l)) = Some l).
  { intros n l Hn. rewrite number_pad. unfold within.
    assert (0 <= n mod 10 ^ Z.of_nat 6 < 10 ^ Z.of_nat 6)
      by (apply Z.mod_pos_bound; lia).
    change (10 ^ Z.of_nat 6) with 1000000 in *.
    destruct (Z.leb_spec 0 (0 * 1000000 + n mod 1000000)),
      (Z.leb_spec (0 * 1000000 + n mod 1000000) 999999); simpl; try done; lia. }
  unfold year_digits.
  destruct (Z.leb_spec 0 y) as [H0 | H0];
    [destruct (Z.leb_spec y 9999) as [H1 | H1] |]; cbn [andb].
  - assert (Hy : year (pad 4 y ++ rest) = number 4 0 (pad 4 y ++ rest)).
    { cbn [pad app]. unfold year. by rewrite digit_not_sign. }
    rewrite Hy. apply field_ok; [lia |]. change (10 ^ Z.of_nat 4) with 10000. lia.
  - destruct (Z.ltb_spec y 0); [lia |]. apply Hsix. lia.
  - destruct (Z.ltb_spec y 0); [| lia]. apply Hsix. lia.
Qed.

Lemma toISOString_is_iso8601 t : is_iso8601 (toISOString t) = true.
Proof.
  unfold is_iso8601, toISOString.
  rewrite list_ascii_of_string_of_list_ascii. unfold iso_chars.
  pose proof (civil_range (t / msPerDay)) as Hc.
  destruct (civil (t / msPerDay)) as [[y m] d]. destruct Hc as [Hm Hd].
  assert (Hms : 0 <= t mod msPerDay < 86400000)
    by (apply Z.mod_pos_bound; reflexivity).
  set (ms := t mod msPerDay) in *. clearbody ms.
  rewrite year_ok. cbn [mbind option_bind expect Ascii.eqb Bool.eqb].
  rewrite field_ok; [| lia | change (10 ^ Z.of_nat 2) with 100; lia].
  cbn [mbind option_bind expect Ascii.eqb Bool.eqb].
  rewrite field_ok; [| lia | change (10 ^ Z.of_nat 2) with 100; lia].
  cbn [mbind option_bind expect Ascii.eqb Bool.eqb].
  assert (0 <= ms / 3600000 <= 23) by (Z.div_mod_to_equations; lia).
  rewrite field_ok; [| lia | change (10 ^ Z.of_nat 2) with 100; lia].
  cbn [mbind option_bind expect Ascii.eqb Bool.eqb].
  assert (0 <= ms / 60000 mod 60 < 60) by (apply Z.mod_pos_bound; lia).
  rewrite field_ok; [| lia | change (10 ^ Z.of_nat 2) with 100; lia].
  cbn [mbind option_bind expect Ascii.eqb Bool.eqb].
  assert (0 <= ms / 1000 mod 60 < 60) by (apply Z.mod_pos_bound; lia).
  rewrite field_ok; [| lia | change (10 ^ Z.of_nat 2) with 100; lia].
  cbn [mbind option_bind expect Ascii.eqb Bool.eqb].
  assert (0 <= ms mod 1000 < 1000) by (apply Z.mod_pos_bound; lia).
  rewrite field_ok; [| lia | change (10 ^ Z.of_nat 3) with 1000; lia].
  reflexivity.
Qed.
End IsoFacts.

(** ** What one booking's step does *)

(** C7. The attendee blocks of the payload are in the order of the
    booking's attendees whichever order the translators resolve in, and
    [Promise.all] has no result, so that no payload is composed, before
    every block is resolved. *)
Theorem C7_attendee_order_preserved choose (b : Booking.t) :
  Promise_all choose (map attendeeBlock (Booking.attendees b))
  = Some (map attendeeBlock (Booking.attendees b))
  ∧ (∀ n, (n < length (Booking.attendees b))%nat ->
       mapM id (settle choose 0 n
                  (imap pair (map attendeeBlock (Booking.attendees b)))
                  (replicate (length (map attendeeBlock (Booking.attendees b))) None))
       = None)
  ∧ (∀ env interval s evt, payload b = Some evt ->
       CalendarEvent.attendees evt = map attendeeBlock (Booking.attendees b)
       ∧ map Person.email (CalendarEvent.attendees evt)
         = map Attendee.email (Booking.attendees b)
       ∧ map (λ p, Language.locale (Person.language p)) (CalendarEvent.attendees evt)
         = map (λ a, nullish (Attendee.locale a) "en") (Booking.attendees b)
       ∧ (delivers env s evt = true ->
          outbox (remind env interval b s).2 = outbox s ++ [evt])).
Proof.
  split; [apply Promise_all_order |]. split.
  - intros n Hn. apply Promise_all_waits. by rewrite length_map.
  - intros env interval s evt He.
    assert (Ha : CalendarEvent.attendees evt
                 = map attendeeBlock (Booking.attendees b)).
    { unfold payload in He. destruct (required b) as [[[u n] tz] |]; [| done].
      by injection He as <-. }
    split; [done |]. rewrite Ha, !map_map. split; [done |]. split; [done |].
    intros Hd. rewrite (remind_go env interval b s evt He), Hd.
    unfold after_remind. rewrite He.
    by destruct (persists env (mailed evt s) (reminder interval b)).
Qed.

Lemma C7_attendee_order_preserved_witness :
  ∃ evt, payload Sample.old = Some evt
    ∧ map (λ p, Language.locale (Person.language p)) (CalendarEvent.attendees evt)
      = ["en"; "fr"; "es"]
    ∧ mapM id (settle (λ k, (5 * k + 2)%nat) 0 2
                 (imap pair (map attendeeBlock Sample.guests))
                 (replicate 3 None)) = None
    ∧ Promise_all (λ k, (5 * k + 2)%nat) (map attendeeBlock Sample.guests)
      = Some (CalendarEvent.attendees evt).
Proof.
  destruct (payload Sample.old) as [evt |] eqn:E; [| by vm_compute in E].
  exists evt.
  destruct (C7_attendee_order_preserved (λ k, (5 * k + 2)%nat) Sample.old)
    as (Hall & Hwait & Hevt).
  destruct (Hevt Sample.reliable 2880 (Sample.world [Sample.old] []) evt E)
    as (Ha & _ & Hl & _).
  split; [done |]. split; [by rewrite Hl |]. split.
  - apply (Hwait 2%nat). simpl. lia.
  - by rewrite Ha.
Defined.

Lemma required_user b u n tz :
  required b = Some (u, n, tz) -> Booking.user b = Some u.
Proof.
  unfold required. destruct (Booking.user b) as [u' |]; [| done].
  change (Some u' ≫= User.name) with (User.name u').
  change (Some u' ≫= User.username) with (User.username u').
  change (Some u' ≫= User.timeZone) with (User.timeZone u').
  destruct (js_or _ _); [| done]. destruct (User.timeZone u'); [| done].
  destruct (_ || _); [done |]. by intros [= -> _ _].
Qed.

(** C8. The payload of a booking that passes the organizer check: type
    and title are the booking's title; the description is left out when
    the booking has none; the custom inputs are there only when the
    stored value is a key/value object; the location is the empty string
    when the booking has none; start and end are ISO 8601 strings;
    the locales of organizer and attendees default to "en"; the
    destination calendar is the booking's own, else the organizer's. *)
Theorem C8_payload_fields env interval b s :
  valid b = true ->
  ∃ u evt, Booking.user b = Some u ∧ payload b = Some evt
    ∧ (delivers env s evt = true ->
       outbox (remind env interval b s).2 = outbox s ++ [evt])
    ∧ CalendarEvent.type evt = Booking.title b
    ∧ CalendarEvent.title evt = Booking.title b
    ∧ CalendarEvent.uid evt = Booking.uid b
    ∧ (Booking.description b = None -> CalendarEvent.description evt = None)
    ∧ (∀ d, CalendarEvent.description evt = Some d -> Booking.description b = Some d)
    ∧ (∀ kv, CalendarEvent.customInputs evt = Some kv
             ↔ Booking.customInputs b = JObject kv)
    ∧ (Booking.location b = None -> CalendarEvent.location evt = "")
    ∧ (∀ l, Booking.location b = Some l -> CalendarEvent.location evt = l)
    ∧ CalendarEvent.startTime evt = JsDate.toISOString (Booking.startTime b)
    ∧ CalendarEvent.endTime evt = JsDate.toISOString (Booking.endTime b)
    ∧ JsDate.is_iso8601 (CalendarEvent.startTime evt) = true
    ∧ JsDate.is_iso8601 (CalendarEvent.endTime evt) = true
    ∧ (User.locale u = None ->
       Language.locale (Person.language (CalendarEvent.organizer evt)) = "en")
    ∧ (∀ l, User.locale u = Some l ->
       Language.locale (Person.language (CalendarEvent.organizer evt)) = l)
    ∧ Forall2 (λ a p,
         (Attendee.locale a = None -> Language.locale (Person.language p) = "en")
         ∧ (∀ l, Attendee.locale a = Some l ->
                 Language.locale (Person.language p) = l))
        (Booking.attendees b) (CalendarEvent.attendees evt)
    ∧ (∀ c, Booking.destinationCalendar b = Some c ->
            CalendarEvent.destinationCalendar evt = Some c)
    ∧ (Booking.destinationCalendar b = None ->
       CalendarEvent.destinationCalendar evt = User.destinationCalendar u).
Proof.
  intros Hv. unfold valid in Hv.
  destruct (required b) as [[[u n] tz] |] eqn:Hr; [clear Hv | done].
  assert (He : payload b = Some
    (make_evt b u n tz (getTranslation (nullish (User.locale u) "en") "common")
       (map attendeeBlock (Booking.attendees b))))
    by (unfold payload; by rewrite Hr).
  eexists u, _. split; [by eapply required_user |]. split; [exact He |].
  split.
  { intros Hd. rewrite (remind_go env interval b s _ He), Hd.
    unfold after_remind. rewrite He. by destruct (persists env _ _). }
  cbn [make_evt CalendarEvent.type CalendarEvent.title CalendarEvent.uid
       CalendarEvent.description CalendarEvent.customInputs
       CalendarEvent.location CalendarEvent.startTime CalendarEvent.endTime
       CalendarEvent.organizer CalendarEvent.attendees
       CalendarEvent.destinationCalendar Person.language Language.locale].
  repeat split; try done.
  - by intros ->.
  - intros d. by destruct (truthy (Booking.description b)).
  - destruct (Booking.customInputs b); simpl; congruence.
  - destruct (Booking.customInputs b); simpl; congruence.
  - by intros ->.
  - by intros l ->.
  - apply toISOString_is_iso8601.
  - apply toISOString_is_iso8601.
  - by intros ->.
  - by intros l ->.
  - clear He. induction (Booking.attendees b) as [| a l IH]; simpl;
      constructor; [| done].
    simpl. split; [by intros -> | by intros ? ->].
  - by intros c ->.
  - by intros ->.
Qed.

Lemma C8_payload_fields_witness :
  ∃ evt, payload Sample.old = Some evt
    ∧ CalendarEvent.title evt = "Intro call"
    ∧ CalendarEvent.location evt = ""
    ∧ CalendarEvent.startTime evt = "2023-11-21T20:53:20.000Z"
    ∧ Language.locale (Person.language (CalendarEvent.organizer evt)) = "en".
Proof.
  destruct (C8_payload_fields Sample.reliable 2880 Sample.old
              (Sample.world [Sample.old] []) eq_refl)
    as (u & evt & Hu & He & _ & _ & Ht & _ & _ & _ & _ & Hl & _ & Hs & _ & _ & _
        & Ho & _).
  exists evt. injection Hu as <-.
  split; [done |]. split; [by rewrite Ht |]. split; [by apply Hl |].
  split; [by rewrite Hs | by apply Ho].
Defined.

(** ** Failures of one booking's step *)

Lemma for_of_failed {A} (x : A) l body s e s' :
  body x s = (Failed e, s') -> for_of (x :: l) body s = (Failed e, s').
Proof. intros H. by rewrite for_of_cons, H. Qed.

Lemma dispatch_failed env intervals s e s' :
  for_of intervals (pass env) (counting 0 s) = (Failed e, s') ->
  dispatch env intervals s = (Failed e, s').
Proof. intros H. by rewrite dispatch_unfold, H. Qed.

Lemma for_of_app {A} (l1 l2 : list A) body : ∀ s,
  for_of (l1 ++ l2) body s =
    match for_of l1 body s with
    | (Ok _, s1) => for_of l2 body s1
    | (Failed e, s1) => (Failed e, s1)
    end.
Proof.
  induction l1 as [| x l1 IH]; intros s; [done |].
  rewrite <- app_comm_cons, !for_of_cons.
  destruct (body x s) as [[[] | e] s1]; [apply IH | done].
Qed.

(** C1, as the handler has it.  Take a run that has passed the two
    guards, has got through the passes before the one at [interval],
    and in that pass through the candidates before [b].  If [b] lacks
    organizer data, it is logged, nothing is sent, written or counted,
    and the pass goes on with the candidates after [b].  A rejection by
    the sender or by the ledger insert is not caught: the pass ends
    there with that rejection, and so does the handler, without a
    response; the candidates after [b] and the later passes are not
    run, the booking is not counted, and after a rejection by the
    sender the state is the one [b] was reached in (no ledger row, no
    log entry). *)
Theorem C1_per_booking_failures env req s0 done interval later s before b after s1 :
  strict_ne (CRON_API_KEY env) (header_or_query req) = false ->
  NextApiRequest.method req = Some "POST" ->
  reminderIntervalMinutes = done ++ interval :: later ->
  for_of done (pass env) (counting 0 s0) = (Ok (), s) ->
  candidates_at (clock env (clockReads s)) interval s = before ++ b :: after ->
  for_of before (remind env interval) (ticked s) = (Ok (), s1) ->
  (required b = None ->
   pass env interval s
   = for_of after (remind env interval) (logged (skipped b) s1)
   ∧ notificationsSent (logged (skipped b) s1) = notificationsSent s1
   ∧ outbox (logged (skipped b) s1) = outbox s1
   ∧ reminderMail (logged (skipped b) s1) = reminderMail s1)
  ∧ (∀ evt, payload b = Some evt -> delivers env s1 evt = false ->
     pass env interval s
     = (Failed (Rejected "sendOrganizerRequestReminderEmail"), s1)
     ∧ handler env req s0
       = (Failed (Rejected "sendOrganizerRequestReminderEmail"), s1))
  ∧ (∀ evt, payload b = Some evt -> delivers env s1 evt = true ->
     persists env (mailed evt s1) (reminder interval b) = false ->
     pass env interval s
     = (Failed (Rejected "prisma.reminderMail.create"), mailed evt s1)
     ∧ handler env req s0
       = (Failed (Rejected "prisma.reminderMail.create"), mailed evt s1)
     ∧ notificationsSent (mailed evt s1) = notificationsSent s1
     ∧ reminderMail (mailed evt s1) = reminderMail s1).
Proof.
  intros Hkey Hm Hint Hdone Hc Hbefore.
  assert (Hp : pass env interval s =
               match remind env interval b s1 with
               | (Ok _, s2) => for_of after (remind env interval) s2
               | (Failed e, s2) => (Failed e, s2)
               end).
  { by rewrite pass_unfold, Hc, for_of_app, Hbefore, for_of_cons. }
  assert (Hh : ∀ e s2, pass env interval s = (Failed e, s2) ->
               handler env req s0 = (Failed e, s2)).
  { intros e s2 He. unfold handler. rewrite Hkey, Hm.
    rewrite bool_decide_eq_true_2 by done. cbn [negb].
    rewrite dispatch_unfold, Hint, for_of_app, Hdone, for_of_cons, He. done. }
  split; [| split].
  - intros Hr. by rewrite Hp, remind_skip.
  - intros evt He Hd.
    assert (Hf : pass env interval s
                 = (Failed (Rejected "sendOrganizerRequestReminderEmail"), s1)).
    { by rewrite Hp, (remind_go env interval b s1 evt He), Hd. }
    split; [done | by apply Hh].
  - intros evt He Hd Hw.
    assert (Hf : pass env interval s
                 = (Failed (Rejected "prisma.reminderMail.create"), mailed evt s1)).
    { by rewrite Hp, (remind_go env interval b s1 evt He), Hd, Hw. }
    split; [done |]. split; [by apply Hh | done].
Qed.

Lemma C1_per_booking_failures_witness :
  let s0 := Sample.world [Sample.old; Sample.older] [] in
  let env := Sample.bouncing "bk-4" in
  ∃ evt, payload Sample.older = Some evt
    ∧ handler env Sample.post s0
      = (Failed (Rejected "sendOrganizerRequestReminderEmail"),
         after_remind 2880 Sample.old (ticked (counting 0 s0)))
    ∧ length (outbox (handler env Sample.post s0).2) = 1%nat.
Proof.
  intros s0 env.
  destruct (payload Sample.older) as [evt |] eqn:E; [| by vm_compute in E].
  exists evt. split; [done |].
  destruct (C1_per_booking_failures env Sample.post s0 [] 2880 [1440; 180]
              (counting 0 s0) [Sample.old] Sample.older []
              (after_remind 2880 Sample.old (ticked (counting 0 s0))))
    as (_ & Hsend & _).
  - reflexivity.
  - reflexivity.
  - reflexivity.
  - reflexivity.
  - vm_compute. reflexivity.
  - vm_compute. reflexivity.
  - destruct (Hsend evt E) as [_ Hh].
    + vm_compute in E. injection E as <-. vm_compute. reflexivity.
    + split; [exact Hh |]. rewrite Hh. vm_compute. reflexivity.
Defined.

(** C1, as stated, fails: the handler has no try/catch.  When the
    sender rejects the mail of the first of two candidates of the pass
    at 2880, the run ends there without a response; nothing is logged,
    and the second candidate, whose mail the sender would take, is never
    reminded. *)
Lemma C1_counterexample :
  let s := Sample.world [Sample.old; Sample.older] [] in
  let env := Sample.bouncing "bk-1" in
  candidates_at Sample.now 2880 s = [Sample.old; Sample.older]
  ∧ (∃ evt, payload Sample.older = Some evt ∧ ∀ st, delivers env st evt = true)
  ∧ (handler env Sample.post s).1
    = Failed (Rejected "sendOrganizerRequestReminderEmail")
  ∧ outbox (handler env Sample.post s).2 = []
  ∧ reminderMail (handler env Sample.post s).2 = []
  ∧ console (handler env Sample.post s).2 = []
  ∧ ∀ s1, for_of [Sample.old; Sample.older] (remind env 2880) s
          ≠ for_of [Sample.older] (remind env 2880) s1.
Proof.
  intros s env. split; [reflexivity |]. split.
  { eexists. split; [reflexivity | done]. }
  split; [reflexivity |]. split; [reflexivity |]. split; [reflexivity |].
  split; [reflexivity |]. intros s1 H.
  assert (Hl : (for_of [Sample.old; Sample.older] (remind env 2880) s).1
               = Failed (Rejected "sendOrganizerRequestReminderEmail"))
    by reflexivity.
  rewrite H in Hl. vm_compute in Hl. discriminate Hl.
Qed.

(** ** A pass as a whole *)

Lemma pass_outcome env interval s :
  loop_outcome env interval
    (candidates_at (clock env (clockReads s)) interval s) (ticked s)
    (pass env interval s).1 (pass env interval s).2.
Proof. rewrite pass_unfold. apply for_of_remind_outcome. Qed.

Lemma pass_ok env interval s s' :
  pass env interval s = (Ok (), s') ->
  s' = after_pass (clock env (clockReads s)) interval s.
Proof.
  intros H. pose proof (pass_outcome env interval s) as Ho.
  rewrite H in Ho. simpl in Ho. by inversion Ho.
Qed.

(** What a pass has done when it ends, whatever its outcome: it has
    gone through the first candidates of its list ([handled]), mailed
    and recorded those that pass the organizer check, and logged the
    others; if the ledger insert rejected, the mail of one more
    candidate has gone out. *)
Lemma pass_handled env interval s res s' :
  pass env interval s = (res, s') ->
  ∃ sent handled rest,
    candidates_at (clock env (clockReads s)) interval s = handled ++ rest
    ∧ (∀ b, b ∈ sent -> b ∈ candidates_at (clock env (clockReads s)) interval s)
    ∧ outbox s' = outbox s ++ omap payload sent
    ∧ reminderMail s'
      = reminderMail s ++ map (reminder interval) (List.filter valid handled)
    ∧ console s'
      = console s ++ map skipped (List.filter (λ b, negb (valid b)) handled)
    ∧ (res = Ok () -> rest = [] ∧ sent = handled).
Proof.
  intros H. pose proof (pass_outcome env interval s) as Ho.
  rewrite H in Ho. simpl in Ho.
  set (l := candidates_at _ _ _) in *. clearbody l.
  inversion Ho as [| l1 b l2 evt Hl He Hd | l1 b l2 evt Hl He Hd Hp]; subst.
  - exists l, l, []. rewrite app_nil_r.
    rewrite completed_outbox, completed_reminderMail, completed_console.
    by repeat split.
  - exists l1, l1, (b :: l2).
    rewrite completed_outbox, completed_reminderMail, completed_console.
    repeat split; try done. intros b' Hb'. apply elem_of_app. by left.
  - exists (l1 ++ [b]), l1, (b :: l2).
    cbn [outbox reminderMail console mailed].
    rewrite completed_outbox, completed_reminderMail, completed_console,
      omap_app.
    simpl. rewrite He, app_assoc. repeat split; try done.
    intros b' [Hb' | ->%list_elem_of_singleton]%elem_of_app;
      apply elem_of_app; [by left | right; by left].
Qed.

(** C2. For every threshold and every booking the pass at that
    threshold fetches, the booking is left out of the bookings the pass
    goes through if and only if the ledger has a
    PENDING_BOOKING_CONFIRMATION row for it with elapsedMinutes at least
    the threshold.  A booking left out gets no mail, no row and no log
    entry from the pass, however the pass ends; a booking not left out
    has, when the pass gets through, its mail and its row, or its log
    entry.  So a row at 2880 keeps the booking out of the passes at 1440
    and 180, and rows at 180 only do not keep it out of the pass at
    1440. *)
Theorem C2_excluded_iff_reminded env interval s b :
  b ∈ fetched (clock env (clockReads s)) interval s ->
  pass env interval s
  = for_of (candidates_at (clock env (clockReads s)) interval s)
      (remind env interval) (ticked s)
  ∧ (b ∉ candidates_at (clock env (clockReads s)) interval s
     ↔ suppressed interval (Booking.id b) (reminderMail s))
  ∧ (∀ res s', pass env interval s = (res, s') ->
     ∃ sent rows entries,
       outbox s' = outbox s ++ omap payload sent
       ∧ reminderMail s' = reminderMail s ++ rows
       ∧ console s' = console s ++ entries
       ∧ (suppressed interval (Booking.id b) (reminderMail s) ->
          (∀ b', b' ∈ sent -> Booking.id b' ≠ Booking.id b)
          ∧ (∀ r, r ∈ rows -> ReminderMail.referenceId r ≠ Booking.id b)
          ∧ (∀ e, e ∈ entries -> LogEntry.bookingId e ≠ Booking.id b))
       ∧ (res = Ok () ->
          ¬ suppressed interval (Booking.id b) (reminderMail s) ->
          (b ∈ sent ∧ reminder interval b ∈ rows)
          ∨ (valid b = false ∧ skipped b ∈ entries)))
  ∧ (reminder 2880 b ∈ reminderMail s ->
     interval = 1440 ∨ interval = 180 ->
     b ∉ candidates_at (clock env (clockReads s)) interval s)
  ∧ ((∀ r, r ∈ reminderMail s ->
        ReminderMail.reminderType r = PENDING_BOOKING_CONFIRMATION ->
        ReminderMail.referenceId r = Booking.id b ->
        ReminderMail.elapsedMinutes r = 180) ->
     interval = 1440 ->
     b ∈ candidates_at (clock env (clockReads s)) interval s).
Proof.
  intros Hb. set (now := clock env (clockReads s)) in *.
  assert (Hiff : b ∉ candidates_at now interval s
                 ↔ suppressed interval (Booking.id b) (reminderMail s)).
  { rewrite <- (excluded_iff_suppressed now) by done.
    unfold candidates_at, candidates. rewrite elem_of_filter_bool.
    destruct (existsb _ _); simpl.
    - split; [done | by intros _ [? _]].
    - split; [| done]. intros H. exfalso. by apply H. }
  split; [apply pass_unfold |]. split; [done |]. split; [| split].
  - intros res s' Hp.
    destruct (pass_handled env interval s res s' Hp)
      as (sent & handled & rest & Hl & Hsent & Ho & Hr & Hc & Hok).
    fold now in Hl, Hsent.
    exists sent, (map (reminder interval) (List.filter valid handled)),
      (map skipped (List.filter (λ b, negb (valid b)) handled)).
    split; [done |]. split; [done |]. split; [done |].
    assert (Hcand : suppressed interval (Booking.id b) (reminderMail s) ->
              ∀ b', b' ∈ candidates_at now interval s ->
                    Booking.id b' ≠ Booking.id b).
    { intros Hs b' [_ Hn]%candidates_at_spec Hid. apply Hn. by rewrite Hid. }
    assert (Hhandled : ∀ b', b' ∈ handled -> b' ∈ candidates_at now interval s).
    { intros b' Hb'. rewrite Hl. apply elem_of_app. by left. }
    split.
    + intros Hs. split; [| split].
      * intros b' Hb'. by apply Hcand, Hsent.
      * intros r (b' & -> & [_ Hb']%elem_of_filter_bool)%list_elem_of_fmap.
        simpl. by apply Hcand, Hhandled.
      * intros e (b' & -> & [_ Hb']%elem_of_filter_bool)%list_elem_of_fmap.
        simpl. by apply Hcand, Hhandled.
    + intros Hres Hn. destruct (Hok Hres) as [-> ->].
      rewrite app_nil_r in Hl.
      assert (Hin : b ∈ handled).
      { rewrite <- Hl. apply candidates_at_spec. by split. }
      destruct (valid b) eqn:Hv.
      * left. split; [done |].
        apply (list_elem_of_fmap_2 (reminder interval)).
        by apply elem_of_filter_bool.
      * right. split; [done |]. apply (list_elem_of_fmap_2 skipped).
        apply elem_of_filter_bool. by rewrite Hv.
  - intros Hr Hi. apply Hiff. exists (reminder 2880 b).
    split; [done |]. repeat split. simpl. lia.
  - intros Honly ->. apply candidates_at_spec. split; [done |].
    intros (r & Hr & Ht & Hid & He).
    specialize (Honly r Hr Ht Hid). lia.
Qed.

Lemma C2_excluded_iff_reminded_witness :
  ((Sample.old ∉ candidates_at Sample.now 1440
       (Sample.world [Sample.old] [reminder 2880 Sample.old]))
   ∧ outbox (pass Sample.reliable 1440
               (Sample.world [Sample.old] [reminder 2880 Sample.old])).2 = [])
  ∧ ((Sample.old ∈ candidates_at Sample.now 1440
        (Sample.world [Sample.old] [reminder 180 Sample.old]))
     ∧ reminder 1440 Sample.old
       ∈ reminderMail (pass Sample.reliable 1440
                         (Sample.world [Sample.old] [reminder 180 Sample.old])).2).
Proof.
  split.
  - destruct (C2_excluded_iff_reminded Sample.reliable 1440
                (Sample.world [Sample.old] [reminder 2880 Sample.old]) Sample.old)
      as (_ & _ & _ & Hout & _).
    + vm_compute. left.
    + split; [| vm_compute; reflexivity].
      apply Hout; [simpl; left | by left].
  - destruct (C2_excluded_iff_reminded Sample.reliable 1440
                (Sample.world [Sample.old] [reminder 180 Sample.old]) Sample.old)
      as (_ & _ & _ & _ & Hin).
    + vm_compute. left.
    + split; [| vm_compute; right; left].
      apply Hin; [| done].
      simpl. intros r Hr _ _. apply list_elem_of_singleton in Hr. by subst.
Defined.

(** Whatever its outcome, a pass leaves the bookings alone, only adds
    to the ledger, and mails candidates from the front of its list. *)
Lemma pass_sent env interval s res s' :
  pass env interval s = (res, s') ->
  ∃ l1 l2,
    candidates_at (clock env (clockReads s)) interval s = l1 ++ l2
    ∧ booking s' = booking s
    ∧ outbox s' = outbox s ++ omap payload l1
    ∧ (∃ rs, reminderMail s' = reminderMail s ++ rs)
    ∧ (res = Ok () -> ∀ b, b ∈ l1 -> valid b = true ->
         reminder interval b ∈ reminderMail s').
Proof.
  intros H. pose proof (pass_outcome env interval s) as Ho.
  rewrite H in Ho. simpl in Ho.
  set (l := candidates_at _ _ _) in *. clearbody l.
  inversion Ho as [| l1 b l2 evt Hl He Hd | l1 b l2 evt Hl He Hd Hp]; subst.
  - exists l, []. rewrite app_nil_r.
    destruct (completed_frame interval l (ticked s)) as [-> _].
    rewrite completed_outbox, completed_reminderMail.
    repeat split; try done; [by eexists |].
    intros _ b Hb Hv. apply elem_of_app. right.
    apply (list_elem_of_fmap_2 (reminder interval)).
    by apply elem_of_filter_bool.
  - exists l1, (b :: l2).
    destruct (completed_frame interval l1 (ticked s)) as [-> _].
    rewrite completed_outbox, completed_reminderMail.
    repeat split; try done. by eexists.
  - exists (l1 ++ [b]), l2. rewrite <- app_assoc. simpl.
    destruct (completed_frame interval l1 (ticked s)) as [-> _].
    rewrite completed_outbox, completed_reminderMail, omap_app. simpl.
    rewrite He, app_assoc. repeat split; try done. by eexists.
Qed.

Lemma passes_frame env intervals : ∀ s res s',
  for_of intervals (pass env) s = (res, s') ->
  booking s' = booking s ∧ ∃ rs, reminderMail s' = reminderMail s ++ rs.
Proof.
  induction intervals as [| T later IH]; intros s res s' H.
  - injection H as <- <-. split; [done |]. exists []. by rewrite app_nil_r.
  - rewrite for_of_cons in H.
    destruct (pass env T s) as [[[] | e] s1] eqn:Hp.
    + destruct (pass_sent _ _ _ _ _ Hp) as (_ & _ & _ & Hb & _ & [rs1 Hr] & _).
      destruct (IH _ _ _ H) as [Hb' [rs2 Hr']].
      split; [congruence |]. exists (rs1 ++ rs2).
      by rewrite Hr', Hr, app_assoc.
    + injection H as <- <-.
      destruct (pass_sent _ _ _ _ _ Hp) as (_ & _ & _ & Hb & _ & Hr & _).
      done.
Qed.

(** ** Running the job again at once *)

Lemma fetched_frame now interval s s' :
  booking s' = booking s -> fetched now interval s' = fetched now interval s.
Proof. unfold fetched. by intros ->. Qed.

Lemma settled_frame now interval s s' rs :
  booking s' = booking s -> reminderMail s' = reminderMail s ++ rs ->
  settled now interval s -> settled now interval s'.
Proof.
  intros Hb Hr Hs b Hf Hv. rewrite (fetched_frame _ _ _ _ Hb) in Hf.
  eapply suppressed_mono; [done | | by apply Hs].
  intros r Hin. rewrite Hr. apply elem_of_app. by left.
Qed.

Lemma suppressed_dec now interval s b :
  b ∈ fetched now interval s ->
  suppressed interval (Booking.id b) (reminderMail s)
  ∨ ¬ suppressed interval (Booking.id b) (reminderMail s).
Proof.
  intros Hb. rewrite <- (excluded_iff_suppressed now) by done.
  destruct (existsb _ _); [by left | by right].
Qed.

Lemma after_pass_frame now interval s :
  booking (after_pass now interval s) = booking s
  ∧ reminderMail (after_pass now interval s)
    = reminderMail s
      ++ map (reminder interval) (List.filter valid (candidates_at now interval s)).
Proof.
  unfold after_pass. rewrite completed_reminderMail.
  by destruct (completed_frame interval (candidates_at now interval s) (ticked s))
    as [-> _].
Qed.

Lemma after_pass_settled now interval s :
  settled now interval (after_pass now interval s).
Proof.
  destruct (after_pass_frame now interval s) as [Hb Hr].
  intros b Hf Hv. rewrite (fetched_frame _ _ _ _ Hb) in Hf. rewrite Hr.
  destruct (suppressed_dec now interval s b Hf) as [Hs | Hn].
  - eapply suppressed_mono; [done | | exact Hs].
    intros r Hin. apply elem_of_app. by left.
  - exists (reminder interval b). split; [| repeat split; simpl; lia].
    apply elem_of_app. right. apply (list_elem_of_fmap_2 (reminder interval)).
    apply elem_of_filter_bool. split; [done |].
    by apply candidates_at_spec.
Qed.

Lemma passes_ok_settled env now intervals :
  (∀ k, clock env k = now) ->
  ∀ s s', for_of intervals (pass env) s = (Ok (), s') ->
  ∀ T, T ∈ intervals -> settled now T s'.
Proof.
  intros Hc. induction intervals as [| T0 later IH]; intros s s' H T HT.
  - by apply elem_of_nil in HT.
  - rewrite for_of_cons in H.
    destruct (pass env T0 s) as [[[] | e] s1] eqn:Hp; [| done].
    apply elem_of_cons in HT as [-> | HT]; [| by eapply IH].
    apply pass_ok in Hp. rewrite Hc in Hp. subst s1.
    destruct (passes_frame _ _ _ _ _ H) as [Hb [rs Hr]].
    eapply settled_frame; [done | done |]. apply after_pass_settled.
Qed.

Lemma for_of_all_skipped env interval l : ∀ s,
  (∀ b, b ∈ l -> valid b = false) ->
  for_of l (remind env interval) s = (Ok (), completed interval l s).
Proof.
  induction l as [| b l IH]; intros s Hl; [done |].
  assert (Hb : required b = None).
  { specialize (Hl b (list_elem_of_here _ _)). unfold valid in Hl.
    by destruct (required b). }
  rewrite for_of_cons, remind_skip by done. simpl.
  replace (after_remind interval b s) with (logged (skipped b) s).
  - apply IH. intros b' Hb'. apply Hl. by right.
  - unfold after_remind. by rewrite (proj2 (payload_required b) Hb).
Qed.

Lemma completed_all_skipped interval l s :
  (∀ b, b ∈ l -> valid b = false) ->
  reminderMail (completed interval l s) = reminderMail s
  ∧ outbox (completed interval l s) = outbox s
  ∧ notificationsSent (completed interval l s) = notificationsSent s.
Proof.
  intros Hl. rewrite completed_reminderMail, completed_outbox,
    completed_notificationsSent.
  assert (Ho : omap payload l = []).
  { induction l as [| b l IH]; [done |]. simpl.
    pose proof (Hl b (list_elem_of_here _ _)) as Hb.
    destruct (payload b) eqn:E.
    - assert (valid b = true) by (apply payload_valid; by eexists). congruence.
    - apply IH. intros b' Hb'. apply Hl. by right. }
  assert (Hf : List.filter valid l = []).
  { clear Ho. induction l as [| b l IH]; [done |]. simpl.
    rewrite (Hl b (list_elem_of_here _ _)). apply IH.
    intros b' Hb'. apply Hl. by right. }
  rewrite Hf, Ho. simpl. rewrite !app_nil_r. repeat split; lia.
Qed.

Lemma pass_settled env now interval s :
  settled now interval s -> clock env (clockReads s) = now ->
  ∃ s', pass env interval s = (Ok (), s')
    ∧ booking s' = booking s
    ∧ reminderMail s' = reminderMail s
    ∧ outbox s' = outbox s
    ∧ notificationsSent s' = notificationsSent s.
Proof.
  intros Hs Hc. rewrite pass_unfold, Hc.
  assert (Hl : ∀ b, b ∈ candidates_at now interval s -> valid b = false).
  { intros b [Hf Hn]%candidates_at_spec.
    destruct (valid b) eqn:Hv; [| done]. destruct Hn. by apply Hs. }
  eexists. split; [by apply for_of_all_skipped |].
  destruct (completed_all_skipped interval _ (ticked s) Hl) as (-> & -> & ->).
  by destruct (completed_frame interval (candidates_at now interval s) (ticked s))
    as [-> _].
Qed.

Lemma passes_settled env now intervals :
  (∀ k, clock env k = now) ->
  ∀ s, (∀ T, T ∈ intervals -> settled now T s) ->
  ∃ s', for_of intervals (pass env) s = (Ok (), s')
    ∧ booking s' = booking s
    ∧ reminderMail s' = reminderMail s
    ∧ outbox s' = outbox s
    ∧ notificationsSent s' = notificationsSent s.
Proof.
  intros Hc. induction intervals as [| T0 later IH]; intros s Hs.
  - by exists s.
  - destruct (pass_settled env now T0 s) as (s1 & Hp & Hb & Hr & Ho & Hn);
      [apply Hs; by left | apply Hc |].
    destruct (IH s1) as (s' & Hf & Hb' & Hr' & Ho' & Hn').
    { intros T HT. apply (settled_frame now T s s1 []); [done | |].
      - by rewrite app_nil_r.
      - apply Hs. by right. }
    exists s'. rewrite for_of_cons, Hp. repeat split; congruence.
Qed.

Lemma handler_200 env req s body s1 :
  handler env req s = (Ok (mkResponse 200 body), s1) ->
  strict_ne (CRON_API_KEY env) (header_or_query req) = false
  ∧ NextApiRequest.method req = Some "POST"
  ∧ dispatch env reminderIntervalMinutes s = (Ok (mkResponse 200 body), s1).
Proof.
  unfold handler. destruct (strict_ne _ _); [done |].
  destruct (bool_decide _) eqn:E; [| done].
  apply bool_decide_eq_true in E. done.
Qed.

(** C4. Running the job twice at once, with the clock standing still
    and the bookings as they are: when the first run has returned its
    count, the second run returns notificationsSent = 0, sends nothing
    and leaves the ledger as it is. *)
Theorem C4_second_run_sends_nothing env env' now req s n s1 :
  (∀ k, clock env k = now) ->
  (∀ k, clock env' k = now) ->
  CRON_API_KEY env' = CRON_API_KEY env ->
  handler env req s = (Ok (mkResponse 200 (NotificationsSent n)), s1) ->
  ∃ s2, handler env' req s1 = (Ok (mkResponse 200 (NotificationsSent 0)), s2)
    ∧ reminderMail s2 = reminderMail s1
    ∧ outbox s2 = outbox s1
    ∧ booking s2 = booking s1.
Proof.
  intros Hc Hc' Hk (Hauth & Hm & Hd)%handler_200.
  rewrite dispatch_unfold in Hd.
  destruct (for_of _ _ (counting 0 s)) as [[[] | e] s1'] eqn:Hrun; [| done].
  injection Hd as _ <-.
  destruct (passes_settled env' now reminderIntervalMinutes Hc' (counting 0 s1'))
    as (s2 & Hrun2 & Hb & Hr & Ho & Hn).
  { intros T HT. apply (settled_frame now T s1' (counting 0 s1') []);
      [done | by rewrite app_nil_r |].
    by apply (passes_ok_settled env now reminderIntervalMinutes Hc _ _ Hrun). }
  exists s2. split; [| done].
  unfold handler. rewrite Hk, Hauth, Hm. simpl.
  rewrite dispatch_unfold, Hrun2. by rewrite Hn.
Qed.

Lemma C4_second_run_sends_nothing_witness :
  let s := Sample.world [Sample.old; Sample.recent; Sample.orphan] [] in
  handler Sample.reliable Sample.post s
  = (Ok (mkResponse 200 (NotificationsSent 2)),
     (handler Sample.reliable Sample.post s).2)
  ∧ ∃ s2, handler Sample.reliable Sample.post
            (handler Sample.reliable Sample.post s).2
          = (Ok (mkResponse 200 (NotificationsSent 0)), s2)
      ∧ reminderMail s2 = reminderMail (handler Sample.reliable Sample.post s).2
      ∧ outbox s2 = outbox (handler Sample.reliable Sample.post s).2
      ∧ booking s2 = booking (handler Sample.reliable Sample.post s).2.
Proof.
  intros s. split; [vm_compute; reflexivity |].
  apply (C4_second_run_sends_nothing Sample.reliable Sample.reliable Sample.now
           Sample.post s 2).
  - reflexivity.
  - reflexivity.
  - reflexivity.
  - vm_compute. reflexivity.
Defined.

(** ** At most one reminder per booking in a run *)

Lemma NoDup_map_filter {A B} (f : A -> B) (p : A -> bool) (l : list A) :
  NoDup (map f l) -> NoDup (map f (List.filter p l)).
Proof.
  induction l as [| x l IH]; simpl; [done |].
  intros [Hx Hl]%NoDup_cons. destruct (p x); simpl; [| by apply IH].
  apply NoDup_cons. split; [| by apply IH].
  intros (y & Hy & [_ Hin]%elem_of_filter_bool)%list_elem_of_fmap.
  apply Hx. rewrite Hy. by apply (list_elem_of_fmap_2 f).
Qed.

Lemma NoDup_map_app_l {A B} (f : A -> B) (l1 l2 : list A) :
  NoDup (map f (l1 ++ l2)) -> NoDup (map f l1).
Proof. rewrite map_app. by intros (? & _)%NoDup_app. Qed.

Lemma NoDup_map_inj {A B} (f : A -> B) (l : list A) x y :
  NoDup (map f l) -> x ∈ l -> y ∈ l -> f x = f y -> x = y.
Proof.
  induction l as [| z l IH]; simpl; [by intros _ ?%elem_of_nil |].
  intros [Hz Hl]%NoDup_cons [-> | Hx]%elem_of_cons [-> | Hy]%elem_of_cons Hf.
  - done.
  - destruct Hz. rewrite Hf. by apply (list_elem_of_fmap_2 f).
  - destruct Hz. rewrite <- Hf. by apply (list_elem_of_fmap_2 f).
  - by apply IH.
Qed.

Lemma candidates_at_NoDup now interval s :
  NoDup (map Booking.id (booking s)) ->
  NoDup (map Booking.id (candidates_at now interval s)).
Proof.
  intros H. unfold candidates_at, candidates, fetched.
  by do 2 apply NoDup_map_filter.
Qed.

Lemma omap_payload_valid l :
  omap payload l = omap payload (List.filter valid l).
Proof.
  unfold omap. induction l as [| b l IH]; [done |]. simpl.
  destruct (valid b) eqn:V; simpl.
  - destruct (payload b); by rewrite IH.
  - destruct (payload b) eqn:E; [| done].
    assert (valid b = true) by (apply payload_valid; by eexists). congruence.
Qed.

Lemma payloads_of_valid bs :
  (∀ b, b ∈ bs -> valid b = true) ->
  Forall2 (λ b evt, payload b = Some evt) bs (omap payload bs).
Proof.
  induction bs as [| b bs IH]; intros H; simpl; [constructor |].
  destruct (proj1 (payload_valid b) (H b (list_elem_of_here _ _))) as [evt He].
  rewrite He. constructor; [done |]. apply IH. intros b' Hb'. apply H. by right.
Qed.

Lemma passes_once env intervals :
  descending intervals ->
  ∀ s (I : list Z) B res s',
    NoDup (map Booking.id (booking s)) ->
    Forall (λ T, T <= B) intervals ->
    (∀ i, i ∈ I -> suppressed B i (reminderMail s)) ->
    for_of intervals (pass env) s = (res, s') ->
    ∃ bs, outbox s' = outbox s ++ omap payload bs
      ∧ (∀ b, b ∈ bs -> valid b = true ∧ b ∈ booking s ∧ Booking.id b ∉ I)
      ∧ NoDup (map Booking.id bs).
Proof.
  induction 1 as [| T later Hlater IH HT]; intros s I B res s' Hnd HB HI Hrun.
  - injection Hrun as _ <-. exists []. rewrite app_nil_r.
    split; [done |]. split; [by intros b ?%elem_of_nil | constructor].
  - apply Forall_cons in HB as [HTB _].
    rewrite for_of_cons in Hrun.
    destruct (pass env T s) as [res1 s1] eqn:Hp.
    destruct (pass_sent _ _ _ _ _ Hp) as (l1 & l2 & Hl & Hb & Ho & [rs Hr] & Hok).
    set (now := clock env (clockReads s)) in *.
    assert (Hmem : ∀ b, b ∈ List.filter valid l1 ->
              valid b = true ∧ b ∈ booking s ∧ Booking.id b ∉ I).
    { intros b [Hv Hin]%elem_of_filter_bool.
      assert (Hc : b ∈ candidates_at now T s)
        by (rewrite Hl; apply elem_of_app; by left).
      apply candidates_at_spec in Hc as [Hf Hn].
      split; [done |]. split; [by apply fetched_spec in Hf as [? _] |].
      intros Hi. apply Hn. eapply suppressed_mono; [exact HTB | | by apply HI].
      done. }
    assert (Hnd1 : NoDup (map Booking.id (List.filter valid l1))).
    { apply NoDup_map_filter, (NoDup_map_app_l _ _ l2). rewrite <- Hl.
      by apply candidates_at_NoDup. }
    rewrite omap_payload_valid in Ho.
    destruct res1 as [[] | e].
    + destruct (IH s1 (I ++ map Booking.id (List.filter valid l1)) T res s')
        as (bs2 & Ho2 & Hmem2 & Hnd2); [congruence | | | done |].
      { eapply Forall_impl; [exact HT |]. simpl. lia. }
      { intros i [Hi | Hi]%elem_of_app.
        - eapply suppressed_mono; [exact HTB | | by apply HI].
          intros r Hin. rewrite Hr. apply elem_of_app. by left.
        - apply list_elem_of_fmap in Hi as (b & -> & [Hv Hin]%elem_of_filter_bool).
          exists (reminder T b). split; [by apply Hok |].
          repeat split. simpl. lia. }
      exists (List.filter valid l1 ++ bs2).
      rewrite omap_app, app_assoc, <- Ho. split; [done |]. split.
      * intros b [Hin | Hin]%elem_of_app; [by apply Hmem |].
        destruct (Hmem2 b Hin) as (Hv & Hbk & Hni).
        split; [done |]. split; [congruence |].
        intros Hi. apply Hni, elem_of_app. by left.
      * rewrite map_app. apply NoDup_app. split; [done |]. split; [| done].
        intros i Hi1 (b & -> & Hin)%list_elem_of_fmap.
        destruct (Hmem2 b Hin) as (_ & _ & Hni). apply Hni, elem_of_app.
        by right.
    + injection Hrun as _ <-. by exists (List.filter valid l1).
Qed.

Lemma reminderIntervalMinutes_descending : descending reminderIntervalMinutes.
Proof.
  unfold descending, reminderIntervalMinutes.
  repeat (constructor; [| repeat constructor; lia]). constructor.
Qed.

(** C9. In one run every booking is mailed at most once, also when it
    is old enough for several thresholds: the mails of the run are the
    payloads of bookings with pairwise distinct ids.  The thresholds go
    from the largest to the smallest, and a row written at a threshold
    keeps the booking out of every pass at that threshold or below. *)
Theorem C9_at_most_one_reminder_per_run env req s :
  NoDup (map Booking.id (booking s)) ->
  descending reminderIntervalMinutes
  ∧ (∀ now T T' b st, T' <= T -> reminder T b ∈ reminderMail st ->
       b ∉ candidates_at now T' st)
  ∧ ∃ bs evts,
      outbox (handler env req s).2 = outbox s ++ evts
      ∧ Forall2 (λ b evt, payload b = Some evt) bs evts
      ∧ NoDup (map Booking.id bs)
      ∧ ∀ b, b ∈ bs -> b ∈ booking s.
Proof.
  intros Hnd. split; [apply reminderIntervalMinutes_descending |]. split.
  { intros now T T' b st Hle Hin [_ Hn]%candidates_at_spec. apply Hn.
    exists (reminder T b). split; [done |]. repeat split. simpl. lia. }
  assert (Hnone : ∃ bs evts, outbox s = outbox s ++ evts
            ∧ Forall2 (λ b evt, payload b = Some evt) bs evts
            ∧ NoDup (map Booking.id bs) ∧ ∀ b, b ∈ bs -> b ∈ booking s).
  { exists [], []. rewrite app_nil_r. repeat split; try constructor.
    by intros b ?%elem_of_nil. }
  unfold handler. destruct (strict_ne _ _); [done |].
  destruct (negb _); [done |]. rewrite dispatch_unfold.
  destruct (for_of reminderIntervalMinutes (pass env) (counting 0 s))
    as [res s'] eqn:Hrun.
  destruct (passes_once env reminderIntervalMinutes
              reminderIntervalMinutes_descending (counting 0 s) [] 2880 res s')
    as (bs & Ho & Hmem & Hnd'); [done | | by intros i ?%elem_of_nil | done |].
  { unfold reminderIntervalMinutes. repeat constructor; lia. }
  exists bs, (omap payload bs).
  assert (Hout : outbox s' = outbox s ++ omap payload bs) by done.
  split; [by destruct res as [[] | e] |].
  split; [apply payloads_of_valid; intros b Hb; by apply Hmem |].
  split; [done |]. intros b Hb. by apply Hmem.
Qed.

Lemma C9_at_most_one_reminder_per_run_witness :
  let s := Sample.world [Sample.old; Sample.recent; Sample.orphan] [] in
  map CalendarEvent.uid (outbox (handler Sample.reliable Sample.post s).2)
  = ["bk-1"; "bk-2"]
  ∧ ∃ bs evts,
      outbox (handler Sample.reliable Sample.post s).2 = outbox s ++ evts
      ∧ Forall2 (λ b evt, payload b = Some evt) bs evts
      ∧ NoDup (map Booking.id bs)
      ∧ ∀ b, b ∈ bs -> b ∈ booking s.
Proof.
  intros s. split; [reflexivity |].
  apply (C9_at_most_one_reminder_per_run Sample.reliable Sample.post s).
  simpl. repeat (apply NoDup_cons; split;
    [rewrite ?elem_of_cons, elem_of_nil; intros H; repeat destruct H as [H | H];
       (discriminate H || exact H) |]).
  constructor.
Defined.

(** ** The order of the thresholds *)

Lemma omap_payload_pair T l :
  omap (λ p : Z * Booking.t, payload p.2) (map (pair T) l) = omap payload l.
Proof.
  unfold omap. induction l as [| b l IH]; [done |]. simpl. by rewrite IH.
Qed.

Lemma passes_ok_run env now intervals :
  (∀ k, clock env k = now) ->
  ∀ s s', for_of intervals (pass env) s = (Ok (), s') ->
    outbox s' = outbox s ++ omap (λ p, payload p.2) (run_sent now intervals s)
    ∧ reminderMail s'
      = reminderMail s ++ map (λ p, reminder p.1 p.2) (run_sent now intervals s).
Proof.
  intros Hc. induction intervals as [| T later IH]; intros s s' H.
  - injection H as <-. simpl. by rewrite !app_nil_r.
  - rewrite for_of_cons in H.
    destruct (pass env T s) as [[[] | e] s1] eqn:Hp; [| done].
    apply pass_ok in Hp. rewrite Hc in Hp. subst s1.
    destruct (IH _ _ H) as [-> ->]. simpl.
    rewrite omap_app, map_app, omap_payload_pair, map_map, !app_assoc. simpl.
    destruct (after_pass_frame now T s) as [_ ->].
    unfold after_pass. rewrite completed_outbox. simpl.
    by rewrite (omap_payload_valid (candidates_at now T s)).
Qed.

Lemma run_sent_sound now intervals : ∀ s T b,
  (T, b) ∈ run_sent now intervals s ->
  T ∈ intervals ∧ b ∈ fetched now T s ∧ valid b = true
  ∧ ¬ suppressed T (Booking.id b) (reminderMail s).
Proof.
  induction intervals as [| T0 later IH]; intros s T b; simpl;
    [by intros ?%elem_of_nil |].
  intros [Hin | Hin]%elem_of_app.
  - apply list_elem_of_fmap in Hin as (b' & [= -> ->] & [Hv Hc]%elem_of_filter_bool).
    apply candidates_at_spec in Hc as [Hf Hn]. split; [by left | done].
  - destruct (IH _ _ _ Hin) as (HT & Hf & Hv & Hn).
    destruct (after_pass_frame now T0 s) as [Hb Hr].
    split; [by right |]. split; [by rewrite <- (fetched_frame now T s _ Hb) |].
    split; [done |]. intros Hs. apply Hn.
    eapply suppressed_mono; [done | | exact Hs].
    intros r Hr'. rewrite Hr. apply elem_of_app. by left.
Qed.

(** Whatever the order, a booking is reminded at the largest threshold it
    is old enough for, unless the ledger had it covered there. *)
Lemma run_sent_complete now intervals : ∀ s T b,
  NoDup (map Booking.id (booking s)) ->
  T ∈ intervals -> b ∈ fetched now T s -> valid b = true ->
  (∀ T', T' ∈ intervals -> b ∈ fetched now T' s -> T' <= T) ->
  ¬ suppressed T (Booking.id b) (reminderMail s) ->
  (T, b) ∈ run_sent now intervals s.
Proof.
  induction intervals as [| T0 later IH]; intros s T b Hnd HT Hf Hv Hmax Hn;
    [by apply elem_of_nil in HT |].
  simpl. apply elem_of_app.
  destruct (decide (T0 = T)) as [-> | Hne].
  - left. apply (list_elem_of_fmap_2 (pair T)). apply elem_of_filter_bool.
    split; [done |]. by apply candidates_at_spec.
  - right. apply elem_of_cons in HT as [-> | HT]; [done |].
    destruct (after_pass_frame now T0 s) as [Hb Hr].
    apply IH; [by rewrite Hb | done | by rewrite (fetched_frame now T s _ Hb)
              | done | |].
    + intros T' HT' Hf'. apply Hmax; [by right |].
      by rewrite <- (fetched_frame now T' s _ Hb).
    + rewrite Hr. intros (r & [Hin | Hin]%elem_of_app & Ht & Hid & He).
      * apply Hn. by exists r.
      * apply list_elem_of_fmap in Hin
          as (b' & -> & [Hv' Hc]%elem_of_filter_bool).
        apply candidates_at_spec in Hc as [Hf0 _]. simpl in Hid, He.
        assert (b' = b) as ->.
        { apply (NoDup_map_inj Booking.id (booking s)); try done.
          - by apply fetched_spec in Hf0 as [? _].
          - by apply fetched_spec in Hf as [? _]. }
        assert (T0 <= T) by (apply Hmax; [by left | done]). lia.
Qed.

(** From the largest threshold to the smallest, a booking is reminded
    only at the largest threshold it is old enough for. *)
Lemma run_sent_first now intervals :
  descending intervals ->
  ∀ s T b, (T, b) ∈ run_sent now intervals s ->
  ∀ T', T' ∈ intervals -> b ∈ fetched now T' s -> T' <= T.
Proof.
  induction 1 as [| T0 later Hlater IH HT0]; intros s T b Hin T' HT' Hf';
    [by apply elem_of_nil in HT' |].
  simpl in Hin. apply elem_of_app in Hin as [Hin | Hin].
  - apply list_elem_of_fmap in Hin as (b' & [= -> ->] & _).
    apply elem_of_cons in HT' as [-> | HT']; [lia |].
    by apply (proj1 (Forall_forall _ _) HT0).
  - destruct (after_pass_frame now T0 s) as [Hb Hr].
    apply elem_of_cons in HT' as [-> | HT'].
    + exfalso. destruct (run_sent_sound _ _ _ _ _ Hin) as (HT & _ & Hv & Hn).
      assert (HTle : T <= T0) by by apply (proj1 (Forall_forall _ _) HT0).
      apply Hn. rewrite Hr.
      destruct (suppressed_dec now T0 s b Hf') as [Hs | Hns].
      * eapply suppressed_mono; [exact HTle | | exact Hs].
        intros r Hr'. apply elem_of_app. by left.
      * exists (reminder T0 b). split; [| by repeat split].
        apply elem_of_app. right.
        apply (list_elem_of_fmap_2 (reminder T0)), elem_of_filter_bool.
        split; [done |]. by apply candidates_at_spec.
    + apply (IH _ _ _ Hin T' HT'). by rewrite (fetched_frame now T' s _ Hb).
Qed.

Lemma largest_such (P : Z -> Prop) (l : list Z) :
  (∀ x, P x ∨ ¬ P x) ->
  (∀ x, x ∈ l -> ¬ P x)
  ∨ ∃ m, m ∈ l ∧ P m ∧ ∀ x, x ∈ l -> P x -> x <= m.
Proof.
  intros Hdec. induction l as [| a l IH]; [left; by intros x ?%elem_of_nil |].
  destruct IH as [Hnone | (m & Hm & HPm & Hmax)]; destruct (Hdec a) as [Ha | Ha].
  - right. exists a. split; [by left |]. split; [done |].
    intros x [-> | Hx]%elem_of_cons Hx'; [lia | by destruct (Hnone x)].
  - left. intros x [-> | Hx]%elem_of_cons; [done | by apply Hnone].
  - right. destruct (Z.le_gt_cases a m).
    + exists m. split; [by right |]. split; [done |].
      intros x [-> | Hx]%elem_of_cons Hx'; [done | by apply Hmax].
    + exists a. split; [by left |]. split; [done |].
      intros x [-> | Hx]%elem_of_cons Hx'; [lia |].
      specialize (Hmax x Hx Hx'). lia.
  - right. exists m. split; [by right |]. split; [done |].
    intros x [-> | Hx]%elem_of_cons Hx'; [done | by apply Hmax].
Qed.

Lemma fetched_dec now s b T T' :
  b ∈ fetched now T s ->
  b ∈ fetched now T' s ∨ ¬ b ∈ fetched now T' s.
Proof.
  intros (Hb & Hs & _)%fetched_spec.
  destruct (Z.le_gt_cases (Booking.createdAt b) (now - T' * 60000)).
  - left. by apply fetched_spec.
  - right. intros (_ & _ & ?)%fetched_spec. lia.
Qed.

(** The bookings reminded by a run depend on the set of thresholds
    only, not on their order. *)
Lemma run_sent_any_order now l1 l2 s T b :
  NoDup (map Booking.id (booking s)) ->
  (∀ x, x ∈ l1 -> x ∈ l2) -> (∀ x, x ∈ l2 -> x ∈ l1) ->
  (T, b) ∈ run_sent now l1 s ->
  ∃ Tm, (Tm, b) ∈ run_sent now l2 s.
Proof.
  intros Hnd H12 H21 Hin.
  destruct (run_sent_sound _ _ _ _ _ Hin) as (HT & Hf & Hv & Hn).
  destruct (largest_such (λ x, b ∈ fetched now x s) l1)
    as [Hnone | (m & Hm & Hfm & Hmax)].
  - intros x. by apply (fetched_dec now s b T).
  - by destruct (Hnone T).
  - exists m. apply run_sent_complete; try done; [by apply H12 | |].
    + intros T' HT' Hf'. apply Hmax; [by apply H21 | done].
    + intros Hs. apply Hn. eapply suppressed_mono; [| | exact Hs]; [| done].
      by apply Hmax.
Qed.

(** C3, as the handler has it.  With booking ids unique, the clock
    standing still and both runs getting through, the thresholds in any
    order remind the same bookings (the same set of payloads is sent) as
    in the order of the handler, and every ledger row of the handler's
    order is also written in the other order.  How often a booking is
    mailed, and which further rows are written, depends on the order. *)
Theorem C3_any_order_same_bookings env now intervals s resp1 s1 resp2 s2 :
  NoDup (map Booking.id (booking s)) ->
  (∀ k, clock env k = now) ->
  intervals ≡ₚ reminderIntervalMinutes ->
  dispatch env reminderIntervalMinutes s = (Ok resp1, s1) ->
  dispatch env intervals s = (Ok resp2, s2) ->
  (∀ evt, evt ∈ outbox s2 ↔ evt ∈ outbox s1)
  ∧ (∀ r, r ∈ reminderMail s1 -> r ∈ reminderMail s2).
Proof.
  intros Hnd Hc Hperm H1 H2. rewrite dispatch_unfold in H1, H2.
  destruct (for_of reminderIntervalMinutes _ _) as [[[] | e1] s1'] eqn:Hr1; [| done].
  destruct (for_of intervals _ _) as [[[] | e2] s2'] eqn:Hr2; [| done].
  injection H1 as _ <-. injection H2 as _ <-.
  destruct (passes_ok_run env now _ Hc _ _ Hr1) as [Ho1 Hl1].
  destruct (passes_ok_run env now _ Hc _ _ Hr2) as [Ho2 Hl2].
  assert (H12 : ∀ x, x ∈ intervals -> x ∈ reminderIntervalMinutes)
    by (intros x; by rewrite Hperm).
  assert (H21 : ∀ x, x ∈ reminderIntervalMinutes -> x ∈ intervals)
    by (intros x; by rewrite Hperm).
  split.
  - intros evt. rewrite Ho1, Ho2, !elem_of_app, !list_elem_of_omap.
    split; (intros [? | ([T b] & Hin & He)]; [by left | right]).
    + destruct (run_sent_any_order now intervals reminderIntervalMinutes
                  (counting 0 s) T b Hnd H12 H21 Hin) as [Tm Hm].
      by exists (Tm, b).
    + destruct (run_sent_any_order now reminderIntervalMinutes intervals
                  (counting 0 s) T b Hnd H21 H12 Hin) as [Tm Hm].
      by exists (Tm, b).
  - intros r. rewrite Hl1, Hl2, !elem_of_app.
    intros [? | Hin]; [by left | right].
    apply list_elem_of_fmap in Hin as ([T b] & -> & Hin).
    apply (list_elem_of_fmap_2 (λ p : Z * Booking.t, reminder p.1 p.2) _ (T, b)).
    destruct (run_sent_sound _ _ _ _ _ Hin) as (HT & Hf & Hv & Hn).
    apply run_sent_complete; try done; [by apply H21 |].
    intros T' HT' Hf'.
    apply (run_sent_first now reminderIntervalMinutes
             reminderIntervalMinutes_descending _ T b Hin); [by apply H12 | done].
Qed.

Lemma C3_any_order_same_bookings_witness :
  let s := Sample.world [Sample.old; Sample.recent] [] in
  let ref := dispatch Sample.reliable reminderIntervalMinutes s in
  let asc := dispatch Sample.reliable [180; 1440; 2880] s in
  (∀ evt, evt ∈ outbox asc.2 ↔ evt ∈ outbox ref.2)
  ∧ (∀ r, r ∈ reminderMail ref.2 -> r ∈ reminderMail asc.2).
Proof.
  intros s ref asc.
  apply (C3_any_order_same_bookings Sample.reliable Sample.now [180; 1440; 2880] s
           (mkResponse 200 (NotificationsSent 2)) ref.2
           (mkResponse 200 (NotificationsSent 4)) asc.2).
  - simpl. repeat (apply NoDup_cons; split;
      [rewrite ?elem_of_cons, elem_of_nil; intros H; repeat destruct H as [H | H];
         (discriminate H || exact H) |]).
    constructor.
  - reflexivity.
  - apply (Permutation_rev [180; 1440; 2880]).
  - vm_compute. reflexivity.
  - vm_compute. reflexivity.
Defined.

(** C3, as stated, fails: the passes are not independent.  A booking
    made 50 hours ago with no reminder yet is mailed once, with one
    ledger row, in the order of the handler, and three times, with three
    ledger rows, from the smallest threshold to the largest. *)
Lemma C3_counterexample :
  let s := Sample.world [Sample.old] [] in
  let ref := dispatch Sample.reliable reminderIntervalMinutes s in
  let asc := dispatch Sample.reliable [180; 1440; 2880] s in
  [180; 1440; 2880] ≡ₚ reminderIntervalMinutes
  ∧ ref.1 = Ok (mkResponse 200 (NotificationsSent 1))
  ∧ asc.1 = Ok (mkResponse 200 (NotificationsSent 3))
  ∧ reminderMail ref.2 = [reminder 2880 Sample.old]
  ∧ reminderMail asc.2
    = [reminder 180 Sample.old; reminder 1440 Sample.old; reminder 2880 Sample.old]
  ∧ length (outbox ref.2) = 1%nat
  ∧ length (outbox asc.2) = 3%nat
  ∧ ¬ (∀ r, r ∈ reminderMail asc.2 -> r ∈ reminderMail ref.2).
Proof.
  intros s ref asc. split; [apply (Permutation_rev [180; 1440; 2880]) |].
  do 6 (split; [vm_compute; reflexivity |]).
  intros H.
  assert (Hin : reminder 180 Sample.old ∈ reminderMail ref.2)
    by (apply H; vm_compute; left).
  vm_compute in Hin. apply list_elem_of_singleton in Hin. discriminate Hin.
Qed.

(** * Further properties of the handler *)

(** ** The check of the key *)

Lemma strict_ne_authenticated env req :
  strict_ne (CRON_API_KEY env) (header_or_query req) = false
  ↔ authenticated env req.
Proof.
  unfold authenticated, header_or_query.
  destruct (CRON_API_KEY env) as [key |];
    destruct (NextApiRequest.authorization req) as [h |] eqn:Eh.
  - destruct (truthy (Some h)) eqn:Et; simpl.
    + rewrite negb_false_iff, String.eqb_eq. split.
      * intros ->. by left.
      * intros [[_ [= ->]] | [? _]]; done.
    + destruct (NextApiRequest.apiKey req) as [| q | l]; simpl.
      * split; [done | by intros [[? _] | [_ ?]]].
      * rewrite negb_false_iff, String.eqb_eq. split.
        -- intros ->. by right.
        -- intros [[? _] | [_ [= ->]]]; done.
      * split; [done | by intros [[? _] | [_ ?]]].
  - destruct (NextApiRequest.apiKey req) as [| q | l]; simpl.
    + split; [done | by intros [[? _] | [_ ?]]].
    + rewrite negb_false_iff, String.eqb_eq. split.
      * intros ->. by right.
      * intros [[? _] | [_ [= ->]]]; done.
    + split; [done | by intros [[? _] | [_ ?]]].
  - destruct (truthy (Some h)) eqn:Et; simpl.
    + split; [done | by intros [? _]].
    + destruct (NextApiRequest.apiKey req); simpl;
        (split; [done || by intros | by intros [_ ?]]).
  - destruct (NextApiRequest.apiKey req); simpl;
      (split; [done || by intros | by intros [_ ?]]).
Qed.

(** X1. The handler answers 401, and does nothing else, exactly when
    the request does not present the configured key.  A truthy
    authorization header is the only thing looked at, so a wrong header
    is refused whatever the query says; a repeated [apiKey] parameter
    (an array) is always refused. *)
Theorem X1_unauthenticated_iff_401 env req s :
  (¬ authenticated env req
   ↔ handler env req s
     = (Ok (mkResponse 401 (Message "Not authenticated")), s))
  ∧ (∀ key h, CRON_API_KEY env = Some key ->
       NextApiRequest.authorization req = Some h -> h ≠ "" -> h ≠ key ->
       ¬ authenticated env req)
  ∧ (∀ l, truthy (NextApiRequest.authorization req) = false ->
       NextApiRequest.apiKey req = QArray l ->
       ¬ authenticated env req).
Proof.
  split; [| split].
  - rewrite <- strict_ne_authenticated. unfold handler.
    destruct (strict_ne _ _).
    + split; [done | by intros _ ?].
    + split; [done |]. intros H. exfalso.
      destruct (negb _); [by injection H |].
      destruct (dispatch env reminderIntervalMinutes s) as [[resp |] s'] eqn:Hd;
        [| done].
      apply dispatch_status in Hd. injection H as -> _. done.
  - intros key h Hk Hh Hne Hkey. unfold authenticated. rewrite Hk, Hh.
    assert (truthy (Some h) = true).
    { simpl. destruct h; [done | reflexivity]. }
    intros [[_ [= ?]] | [? _]]; congruence.
  - intros l Ht Hq. unfold authenticated. rewrite Ht, Hq.
    destruct (CRON_API_KEY env); [| by intros [_ ?]].
    intros [[? _] | [_ ?]]; done.
Qed.

Lemma X1_unauthenticated_iff_401_witness :
  let req := NextApiRequest.mk (Some "POST") (Some "guess") (QString "secret") in
  handler Sample.reliable req (Sample.world [Sample.old] [])
  = (Ok (mkResponse 401 (Message "Not authenticated")),
     Sample.world [Sample.old] []).
Proof.
  intros req.
  apply (proj1 (X1_unauthenticated_iff_401 Sample.reliable req
                  (Sample.world [Sample.old] []))).
  apply (proj1 (proj2 (X1_unauthenticated_iff_401 Sample.reliable req
                  (Sample.world [Sample.old] []))) "secret" "guess");
    [reflexivity | reflexivity | discriminate | discriminate].
Defined.

(** ** What a run does, whatever its outcome *)

(** A pass mails and records the bookings that pass the organizer check
    among the first candidates of its list, one after the other; if the
    ledger insert rejects, one more mail has gone out without its row. *)
Lemma pass_trace env interval s res s' :
  pass env interval s = (res, s') ->
  ∃ l1 l2 extra,
    candidates_at (clock env (clockReads s)) interval s = l1 ++ l2
    ∧ booking s' = booking s
    ∧ outbox s' = outbox s ++ omap payload (List.filter valid l1) ++ extra
    ∧ reminderMail s'
      = reminderMail s ++ map (reminder interval) (List.filter valid l1)
    ∧ notificationsSent s'
      = notificationsSent s + Z.of_nat (length (List.filter valid l1))
    ∧ (res = Ok () -> extra = [])
    ∧ (extra = []
       ∨ ∃ b evt, extra = [evt] ∧ payload b = Some evt
           ∧ b ∈ candidates_at (clock env (clockReads s)) interval s).
Proof.
  intros H. pose proof (pass_outcome env interval s) as Ho.
  rewrite H in Ho. simpl in Ho.
  set (l := candidates_at _ _ _) in *.
  assert (Hl : l = candidates_at (clock env (clockReads s)) interval s) by done.
  clearbody l.
  inversion Ho as [| l1 b l2 evt Hl' He Hd | l1 b l2 evt Hl' He Hd Hp]; subst.
  - exists (candidates_at (clock env (clockReads s)) interval s), [], [].
    rewrite !app_nil_r.
    destruct (completed_frame interval
                (candidates_at (clock env (clockReads s)) interval s) (ticked s))
      as [-> _].
    rewrite completed_outbox, completed_reminderMail,
      completed_notificationsSent, <- omap_payload_valid.
    repeat split; try done. by left.
  - exists l1, (b :: l2), []. rewrite !app_nil_r.
    destruct (completed_frame interval l1 (ticked s)) as [-> _].
    rewrite completed_outbox, completed_reminderMail,
      completed_notificationsSent, <- omap_payload_valid.
    repeat split; try done. by left.
  - exists l1, (b :: l2), [evt].
    cbn [booking outbox reminderMail notificationsSent mailed].
    destruct (completed_frame interval l1 (ticked s)) as [-> _].
    rewrite completed_outbox, completed_reminderMail,
      completed_notificationsSent, <- omap_payload_valid, <- app_assoc.
    repeat split; try done. right. exists b, evt.
    repeat split; try done.
    match goal with
    | H : _ = l1 ++ b :: l2 |- _ => rewrite H
    | H : l1 ++ b :: l2 = _ |- _ => rewrite <- H
    end.
    apply elem_of_app. right. by left.
Qed.

Lemma length_payloads (sent : list (Z * Booking.t)) :
  (∀ T b, (T, b) ∈ sent -> valid b = true) ->
  length (omap (λ p : Z * Booking.t, payload p.2) sent) = length sent.
Proof.
  unfold omap. induction sent as [| [T b] sent IH]; intros H; [done |]. simpl.
  destruct (proj1 (payload_valid b) (H T b (list_elem_of_here _ _))) as [evt ->].
  simpl. f_equal. apply IH. intros T' b' Hin. apply (H T' b'). by right.
Qed.

(** A run over descending thresholds: the reminders it completes
    ([sent]: threshold and booking, in order) and the mail that may have
    gone out without its row ([extra]). *)
Lemma old_enough_here env reads T later b :
  Booking.createdAt b <= clock env reads - T * 60000 ->
  old_enough env reads (T :: later) T b.
Proof. intros H. exists 0%nat. by rewrite Nat.add_0_r. Qed.

Lemma old_enough_later env reads T later T' b :
  old_enough env (S reads) later T' b ->
  old_enough env reads (T :: later) T' b.
Proof.
  intros (i & Hi & H). exists (S i). split; [done |].
  by replace (reads + S i)%nat with (S reads + i)%nat by lia.
Qed.

Lemma run_trace env intervals :
  descending intervals ->
  ∀ s (I : list Z) B res s',
    Forall (λ T, T <= B) intervals ->
    (∀ i, i ∈ I -> suppressed B i (reminderMail s)) ->
    for_of intervals (pass env) s = (res, s') ->
    ∃ (sent : list (Z * Booking.t)) (extra : list CalendarEvent.t),
      booking s' = booking s
      ∧ outbox s' = outbox s ++ omap (λ p, payload p.2) sent ++ extra
      ∧ reminderMail s' = reminderMail s ++ map (λ p, reminder p.1 p.2) sent
      ∧ notificationsSent s' = notificationsSent s + Z.of_nat (length sent)
      ∧ (∀ T b, (T, b) ∈ sent ->
           T ∈ intervals ∧ b ∈ booking s ∧ Booking.status b = PENDING
           ∧ valid b = true ∧ old_enough env (clockReads s) intervals T b)
      ∧ (res = Ok () -> extra = [])
      ∧ (extra = []
         ∨ ∃ T b evt, extra = [evt] ∧ payload b = Some evt
             ∧ T ∈ intervals ∧ b ∈ booking s ∧ Booking.status b = PENDING
             ∧ old_enough env (clockReads s) intervals T b)
      ∧ (NoDup (map Booking.id (booking s)) ->
         NoDup (map (λ p : Z * Booking.t, Booking.id p.2) sent)
         ∧ ∀ T b, (T, b) ∈ sent -> Booking.id b ∉ I).
Proof.
  induction 1 as [| T later Hlater IH HT]; intros s I B res s' HB HI Hrun.
  - injection Hrun as _ <-. exists [], []. simpl. rewrite !app_nil_r.
    split; [done |]. split; [done |]. split; [done |]. split; [lia |].
    split; [by intros T b ?%elem_of_nil |]. split; [done |].
    split; [by left |]. intros _.
    split; [constructor | by intros T b ?%elem_of_nil].
  - apply Forall_cons in HB as [HTB _]. rewrite for_of_cons in Hrun.
    destruct (pass env T s) as [res1 s1] eqn:Hp.
    destruct (pass_trace _ _ _ _ _ Hp)
      as (l1 & l2 & extra1 & Hl & Hb & Ho & Hr & Hn & Hok & Hex).
    set (now := clock env (clockReads s)) in *.
    set (sent1 := List.filter valid l1) in *.
    assert (Hcand : ∀ b, b ∈ candidates_at now T s ->
              b ∈ booking s ∧ Booking.status b = PENDING
              ∧ old_enough env (clockReads s) (T :: later) T b
              ∧ ¬ suppressed T (Booking.id b) (reminderMail s)).
    { intros b [(? & ? & ?)%fetched_spec ?]%candidates_at_spec.
      repeat split; try done. by apply old_enough_here. }
    assert (Hsent1 : ∀ b, b ∈ sent1 ->
              valid b = true ∧ b ∈ candidates_at now T s).
    { intros b [Hv Hin]%elem_of_filter_bool. split; [done |].
      rewrite Hl. apply elem_of_app. by left. }
    assert (Hfacts1 : ∀ T' b, (T', b) ∈ map (pair T) sent1 ->
              T' ∈ T :: later ∧ b ∈ booking s ∧ Booking.status b = PENDING
              ∧ valid b = true
              ∧ old_enough env (clockReads s) (T :: later) T' b).
    { intros T' b (b' & [= -> ->] & Hin)%list_elem_of_fmap.
      destruct (Hsent1 _ Hin) as [Hv Hc].
      destruct (Hcand _ Hc) as (? & ? & ? & _).
      split; [by left | done]. }
    assert (Hnd1 : NoDup (map Booking.id (booking s)) ->
              NoDup (map (λ p : Z * Booking.t, Booking.id p.2) (map (pair T) sent1))
              ∧ ∀ T' b, (T', b) ∈ map (pair T) sent1 -> Booking.id b ∉ I).
    { intros Hnd. split.
      - rewrite map_map. simpl. apply NoDup_map_filter, (NoDup_map_app_l _ _ l2).
        rewrite <- Hl. by apply candidates_at_NoDup.
      - intros T' b (b' & [= -> ->] & Hin)%list_elem_of_fmap Hi.
        destruct (Hsent1 _ Hin) as [_ Hc].
        destruct (Hcand _ Hc) as (_ & _ & _ & Hns). apply Hns.
        eapply suppressed_mono; [exact HTB | | by apply HI]. done. }
    destruct res1 as [[] | e].
    + rewrite (Hok eq_refl), app_nil_r in Ho.
      assert (Hreads : clockReads s1 = S (clockReads s)).
      { rewrite (pass_ok _ _ _ _ Hp).
        exact (proj2 (completed_frame T _ (ticked s))). }
      destruct (IH s1 (I ++ map Booking.id sent1) T res s')
        as (sent2 & extra & Hb2 & Ho2 & Hr2 & Hn2 & Hf2 & Hok2 & Hex2 & Hnd2);
        [| | done |].
      { eapply Forall_impl; [exact HT |]. simpl. lia. }
      { intros i [Hi | Hi]%elem_of_app.
        - eapply suppressed_mono; [exact HTB | | by apply HI].
          intros r Hin. rewrite Hr. apply elem_of_app. by left.
        - apply list_elem_of_fmap in Hi as (b & -> & Hin).
          exists (reminder T b). split; [| repeat split; simpl; lia].
          rewrite Hr. apply elem_of_app. right.
          by apply (list_elem_of_fmap_2 (reminder T)). }
      exists (map (pair T) sent1 ++ sent2), extra.
      split; [congruence |]. split.
      { rewrite Ho2, Ho, omap_app, omap_payload_pair, <- !app_assoc. done. }
      split.
      { rewrite Hr2, Hr, map_app, map_map, <- app_assoc. done. }
      split.
      { rewrite Hn2, Hn, length_app, length_map. lia. }
      split.
      { intros T' b [Hin | Hin]%elem_of_app; [by apply Hfacts1 |].
        destruct (Hf2 _ _ Hin) as (? & ? & ? & ? & Hold).
        rewrite Hreads in Hold. apply (old_enough_later _ _ T) in Hold.
        split; [by right |]. split; [congruence | done]. }
      split; [done |]. split.
      { destruct Hex2 as [-> | (T' & b & evt & -> & ? & ? & ? & ? & Hold)];
          [by left | right].
        rewrite Hreads in Hold. apply (old_enough_later _ _ T) in Hold.
        exists T', b, evt. repeat split; try done; [by right | congruence]. }
      intros Hnd. destruct (Hnd1 Hnd) as [Hnd1a Hnd1b].
      destruct Hnd2 as [Hnd2a Hnd2b]; [congruence |]. split.
      * rewrite map_app. apply NoDup_app. split; [done |]. split; [| done].
        intros i Hi1 ([T' b] & -> & Hin)%list_elem_of_fmap.
        apply (Hnd2b _ _ Hin), elem_of_app. right.
        by rewrite map_map in Hi1.
      * intros T' b [Hin | Hin]%elem_of_app; [by eapply Hnd1b |].
        intros Hi. apply (Hnd2b _ _ Hin), elem_of_app. by left.
    + injection Hrun as <- <-. exists (map (pair T) sent1), extra1.
      split; [done |]. split; [by rewrite omap_payload_pair |].
      split; [by rewrite map_map |]. split; [by rewrite length_map |].
      split; [done |]. split; [done |]. split; [| done].
      destruct Hex as [-> | (b & evt & -> & ? & Hc)]; [by left | right].
      destruct (Hcand _ Hc) as (? & ? & ? & _).
      exists T, b, evt. repeat split; try done. by left.
Qed.

Lemma handler_trace env req s :
  ∃ (sent : list (Z * Booking.t)) (extra : list CalendarEvent.t),
    booking (handler env req s).2 = booking s
    ∧ outbox (handler env req s).2
      = outbox s ++ omap (λ p, payload p.2) sent ++ extra
    ∧ reminderMail (handler env req s).2
      = reminderMail s ++ map (λ p, reminder p.1 p.2) sent
    ∧ (∀ T b, (T, b) ∈ sent ->
         T ∈ reminderIntervalMinutes ∧ b ∈ booking s
         ∧ Booking.status b = PENDING ∧ valid b = true
         ∧ old_enough env (clockReads s) reminderIntervalMinutes T b)
    ∧ (extra = []
       ∨ ∃ T b evt, extra = [evt] ∧ payload b = Some evt
           ∧ T ∈ reminderIntervalMinutes ∧ b ∈ booking s
           ∧ Booking.status b = PENDING
           ∧ old_enough env (clockReads s) reminderIntervalMinutes T b)
    ∧ (∀ resp, (handler env req s).1 = Ok resp ->
         extra = []
         ∧ ∀ n, json resp = NotificationsSent n -> n = Z.of_nat (length sent))
    ∧ (NoDup (map Booking.id (booking s)) ->
       NoDup (map (λ p : Z * Booking.t, Booking.id p.2) sent)).
Proof.
  assert (Hnone : ∀ resp, (∀ n, json resp ≠ NotificationsSent n) ->
    ∃ (sent : list (Z * Booking.t)) (extra : list CalendarEvent.t),
      booking s = booking s
      ∧ outbox s = outbox s ++ omap (λ p, payload p.2) sent ++ extra
      ∧ reminderMail s = reminderMail s ++ map (λ p, reminder p.1 p.2) sent
      ∧ (∀ T b, (T, b) ∈ sent ->
           T ∈ reminderIntervalMinutes ∧ b ∈ booking s
           ∧ Booking.status b = PENDING ∧ valid b = true
         ∧ old_enough env (clockReads s) reminderIntervalMinutes T b)
      ∧ (extra = []
         ∨ ∃ T b evt, extra = [evt] ∧ payload b = Some evt
             ∧ T ∈ reminderIntervalMinutes ∧ b ∈ booking s
             ∧ Booking.status b = PENDING
           ∧ old_enough env (clockReads s) reminderIntervalMinutes T b)
      ∧ (∀ resp', @Ok Response resp = Ok resp' ->
           extra = []
           ∧ ∀ n, json resp' = NotificationsSent n -> n = Z.of_nat (length sent))
      ∧ (NoDup (map Booking.id (booking s)) ->
         NoDup (map (λ p : Z * Booking.t, Booking.id p.2) sent))).
  { intros resp Hresp. exists [], []. simpl. rewrite !app_nil_r.
    split; [done |]. split; [done |]. split; [done |].
    split; [by intros T b ?%elem_of_nil |]. split; [by left |].
    split; [| intros _; constructor].
    intros resp' [= <-]. split; [done |]. intros n Hn. by destruct (Hresp n). }
  unfold handler. destruct (strict_ne _ _); [by apply Hnone |].
  destruct (negb _); [by apply Hnone |]. clear Hnone.
  rewrite dispatch_unfold.
  destruct (for_of reminderIntervalMinutes (pass env) (counting 0 s))
    as [res s'] eqn:Hrun.
  destruct (run_trace env reminderIntervalMinutes
              reminderIntervalMinutes_descending (counting 0 s) [] 2880 res s')
    as (sent & extra & Hb & Ho & Hr & Hn & Hf & Hok & Hex & Hnd);
    [| by intros i ?%elem_of_nil | done |].
  { unfold reminderIntervalMinutes. repeat constructor; lia. }
  exists sent, extra. simpl in Hb, Ho, Hr, Hn, Hf, Hex, Hnd.
  destruct res as [[] | e]; simpl; (split; [done |]); (split; [done |]);
    (split; [done |]); (split; [done |]); (split; [done |]);
    (split; [| intros H; by apply Hnd]).
  - intros resp [= <-]. split; [by apply Hok |]. simpl. intros n [= <-]. lia.
  - done.
Qed.

Lemma payload_uid b evt :
  payload b = Some evt -> CalendarEvent.uid evt = Booking.uid b.
Proof.
  unfold payload. destruct (required b) as [[[u n] tz] |]; [| done].
  by intros [= <-].
Qed.

(** X2. Whatever a run does, every mail it sends is the payload of a
    booking of the table that is pending and was made at least a
    threshold (so at least 180 minutes) before the instant the pass at
    that threshold read the clock.  So no mail goes out under a uid all
    of whose pending bookings are younger than three hours at the three
    readings of the run, nor under a uid that has no pending booking. *)
Theorem X2_only_pending_old_bookings_mailed env req s :
  ∃ evts, outbox (handler env req s).2 = outbox s ++ evts
    ∧ Forall (λ evt, ∃ T b, payload b = Some evt
                ∧ T ∈ reminderIntervalMinutes ∧ 180 <= T
                ∧ b ∈ booking s ∧ Booking.status b = PENDING
                ∧ old_enough env (clockReads s) reminderIntervalMinutes T b)
        evts
    ∧ ∀ uid,
        (∀ b (i : nat), b ∈ booking s -> Booking.uid b = uid ->
           Booking.status b = PENDING -> (i < 3)%nat ->
           clock env (clockReads s + i)%nat - 180 * 60000
           < Booking.createdAt b) ->
        Forall (λ evt, CalendarEvent.uid evt ≠ uid) evts.
Proof.
  destruct (handler_trace env req s)
    as (sent & extra & _ & Ho & _ & Hf & Hex & _).
  assert (H180 : ∀ T, T ∈ reminderIntervalMinutes -> 180 <= T).
  { intros T. unfold reminderIntervalMinutes.
    rewrite !elem_of_cons, elem_of_nil. lia. }
  exists (omap (λ p, payload p.2) sent ++ extra). split; [done |].
  assert (Hall : Forall (λ evt, ∃ T b, payload b = Some evt
                ∧ T ∈ reminderIntervalMinutes ∧ 180 <= T
                ∧ b ∈ booking s ∧ Booking.status b = PENDING
                ∧ old_enough env (clockReads s) reminderIntervalMinutes T b)
            (omap (λ p, payload p.2) sent ++ extra)).
  { apply Forall_app. split.
    - apply Forall_forall. intros evt ([T b] & Hin & He)%list_elem_of_omap.
      destruct (Hf _ _ Hin) as (? & ? & ? & ? & ?).
      exists T, b. repeat split; try done. by apply H180.
    - destruct Hex as [-> | (T & b & evt & -> & ? & ? & ? & ? & ?)];
        [constructor |].
      constructor; [| constructor]. exists T, b. repeat split; try done.
      by apply H180. }
  split; [done |]. intros uid Hyoung.
  eapply Forall_impl; [exact Hall |]. simpl.
  intros evt (T & b & He & HT & HT180 & Hb & Hs & i & Hi & Hold) Huid.
  apply payload_uid in He. rewrite Huid in He.
  assert (Hlt : (i < 3)%nat) by (by apply lookup_lt_Some in Hi).
  specialize (Hyoung b i Hb (eq_sym He) Hs Hlt). lia.
Qed.

Lemma X2_only_pending_old_bookings_mailed_witness :
  let s := Sample.world [Sample.old; Sample.fresh; Sample.accepted] [] in
  length (outbox (handler Sample.ticking Sample.post s).2) = 1%nat
  ∧ Forall (λ evt, CalendarEvent.uid evt ≠ "bk-5")
      (outbox (handler Sample.ticking Sample.post s).2)
  ∧ Forall (λ evt, CalendarEvent.uid evt ≠ "bk-6")
      (outbox (handler Sample.ticking Sample.post s).2).
Proof.
  intros s. split; [vm_compute; reflexivity |].
  destruct (X2_only_pending_old_bookings_mailed Sample.ticking Sample.post s)
    as (evts & Ho & _ & Hnone).
  rewrite Ho. simpl. split; apply Hnone.
  - intros b i Hb Hu Hs Hi. unfold s in Hb. simpl in Hb.
    rewrite !elem_of_cons, elem_of_nil in Hb.
    destruct Hb as [-> | [-> | [-> | []]]]; [discriminate Hu | | discriminate Hu].
    destruct i as [| [| [| i]]]; [vm_compute; reflexivity ..| lia].
  - intros b i Hb Hu Hs Hi. unfold s in Hb. simpl in Hb.
    rewrite !elem_of_cons, elem_of_nil in Hb.
    destruct Hb as [-> | [-> | [-> | []]]];
      [discriminate Hu | discriminate Hu | discriminate Hs].
Defined.

(** X3. A run never changes the bookings and never updates or deletes a
    ledger row: it only appends rows, each of kind
    PENDING_BOOKING_CONFIRMATION, at one of the three thresholds, for a
    pending booking of the table whose mail has gone out. *)
Theorem X3_ledger_append_only env req s :
  booking (handler env req s).2 = booking s
  ∧ ∃ rows, reminderMail (handler env req s).2 = reminderMail s ++ rows
      ∧ Forall (λ r,
          ReminderMail.reminderType r = PENDING_BOOKING_CONFIRMATION
          ∧ ReminderMail.elapsedMinutes r ∈ reminderIntervalMinutes
          ∧ ∃ b evt, b ∈ booking s
              ∧ ReminderMail.referenceId r = Booking.id b
              ∧ Booking.status b = PENDING
              ∧ payload b = Some evt
              ∧ evt ∈ outbox (handler env req s).2) rows.
Proof.
  destruct (handler_trace env req s)
    as (sent & extra & Hb & Ho & Hr & Hf & _).
  split; [done |]. exists (map (λ p, reminder p.1 p.2) sent). split; [done |].
  apply Forall_forall. intros r ([T b] & -> & Hin)%list_elem_of_fmap.
  destruct (Hf _ _ Hin) as (? & ? & ? & Hv & ?).
  destruct (proj1 (payload_valid b) Hv) as [evt He].
  split; [done |]. split; [done |]. exists b, evt.
  repeat split; try done. rewrite Ho, !elem_of_app. right. left.
  apply list_elem_of_omap. by exists (T, b).
Qed.

(** X4. The mails of a run and the rows it writes go one to one, except
    that a rejected ledger insert leaves one mail without its row; when
    the handler answers, they are equal in number, and the count in a
    200 answer is that number. *)
Theorem X4_count_is_mails_is_rows env req s :
  ∃ rows evts,
    reminderMail (handler env req s).2 = reminderMail s ++ rows
    ∧ outbox (handler env req s).2 = outbox s ++ evts
    ∧ (length rows <= length evts <= S (length rows))%nat
    ∧ ∀ resp, (handler env req s).1 = Ok resp ->
        length evts = length rows
        ∧ ∀ n, json resp = NotificationsSent n -> n = Z.of_nat (length rows).
Proof.
  destruct (handler_trace env req s)
    as (sent & extra & _ & Ho & Hr & Hf & Hex & Hok & _).
  exists (map (λ p, reminder p.1 p.2) sent),
    (omap (λ p, payload p.2) sent ++ extra).
  assert (Hlen : length (omap (λ p : Z * Booking.t, payload p.2) sent)
                 = length sent).
  { apply length_payloads. intros T b Hin. by apply (Hf T b). }
  split; [done |]. split; [done |].
  rewrite length_app, length_map, Hlen. split.
  - destruct Hex as [-> | (T & b & evt & -> & _)]; simpl; lia.
  - intros resp Hresp. destruct (Hok resp Hresp) as [-> Hn]. simpl.
    split; [lia | done].
Qed.

(** X5. With booking ids unique, the count of a 200 answer is at most
    the number of pending bookings of the table that pass the organizer
    check. *)
Theorem X5_count_bounded_by_pending env req s n s' :
  NoDup (map Booking.id (booking s)) ->
  handler env req s = (Ok (mkResponse 200 (NotificationsSent n)), s') ->
  0 <= n
    <= Z.of_nat (length (List.filter
         (λ b, BookingStatus_eqb (Booking.status b) PENDING && valid b)
         (booking s))).
Proof.
  intros Hnd H.
  destruct (handler_trace env req s)
    as (sent & extra & _ & _ & _ & Hf & _ & Hok & Hnd').
  rewrite H in Hok. destruct (Hok _ eq_refl) as [_ Hn].
  rewrite (Hn n eq_refl). split; [lia |]. apply inj_le.
  rewrite <- (length_map snd sent).
  apply submseteq_length, NoDup_submseteq.
  - apply (NoDup_fmap_1 Booking.id). specialize (Hnd' Hnd).
    by rewrite map_map.
  - intros b ([T b'] & -> & Hin)%list_elem_of_fmap. simpl.
    destruct (Hf _ _ Hin) as (_ & ? & Hs & Hv & _).
    apply elem_of_filter_bool. split; [| done].
    by rewrite Hs, Hv.
Qed.

Lemma X5_count_bounded_by_pending_witness :
  let s := Sample.world [Sample.old; Sample.recent; Sample.orphan] [] in
  (handler Sample.reliable Sample.post s).1
  = Ok (mkResponse 200 (NotificationsSent 2))
  ∧ 0 <= 2
    <= Z.of_nat (length (List.filter
         (λ b, BookingStatus_eqb (Booking.status b) PENDING && valid b)
         (booking s))).
Proof.
  intros s. split; [vm_compute; reflexivity |]. revert s.
  intros s.
  apply (X5_count_bounded_by_pending Sample.reliable Sample.post s 2
           (handler Sample.reliable Sample.post s).2).
  - simpl. repeat (apply NoDup_cons; split;
      [rewrite ?elem_of_cons, elem_of_nil; intros H; repeat destruct H as [H | H];
         (discriminate H || exact H) |]).
    constructor.
  - vm_compute. reflexivity.
Defined.

(** ** Nothing to do *)

Lemma filter_none {A} (f : A -> bool) (l : list A) :
  (∀ x, x ∈ l -> f x = false) -> List.filter f l = [].
Proof.
  induction l as [| x l IH]; intros H; [done |]. simpl.
  rewrite (H x (list_elem_of_here _ _)). apply IH. intros y Hy. apply H. by right.
Qed.

Lemma pass_idle env interval s :
  fetched (clock env (clockReads s)) interval s = [] ->
  pass env interval s = (Ok (), ticked s).
Proof.
  intros H. rewrite pass_unfold. unfold candidates_at, candidates.
  by rewrite H.
Qed.

Lemma passes_idle env intervals : ∀ s,
  (∀ T k, T ∈ intervals -> fetched (clock env k) T s = []) ->
  ∃ s', for_of intervals (pass env) s = (Ok (), s')
    ∧ booking s' = booking s ∧ reminderMail s' = reminderMail s
    ∧ outbox s' = outbox s ∧ console s' = console s
    ∧ notificationsSent s' = notificationsSent s.
Proof.
  induction intervals as [| T later IH]; intros s H; [by exists s |].
  destruct (IH (ticked s)) as (s' & Hrun & ? & ? & ? & ? & ?).
  { intros T' k HT'. rewrite (fetched_frame _ _ s (ticked s)) by done.
    apply H. by right. }
  exists s'. rewrite for_of_cons, pass_idle; [done |]. apply H. by left.
Qed.

(** X6. When no pending booking is three hours old at any reading of
    the clock (an empty table included), an authenticated POST is
    answered 200 with notificationsSent = 0, and nothing has been sent,
    written or logged. *)
Theorem X6_nothing_due env req s :
  authenticated env req ->
  NextApiRequest.method req = Some "POST" ->
  (∀ b k, b ∈ booking s -> Booking.status b = PENDING ->
          clock env k - 180 * 60000 < Booking.createdAt b) ->
  ∃ s', handler env req s = (Ok (mkResponse 200 (NotificationsSent 0)), s')
    ∧ booking s' = booking s ∧ reminderMail s' = reminderMail s
    ∧ outbox s' = outbox s ∧ console s' = console s.
Proof.
  intros Ha Hm Hyoung. apply strict_ne_authenticated in Ha.
  destruct (passes_idle env reminderIntervalMinutes (counting 0 s))
    as (s' & Hrun & Hb & Hr & Ho & Hc & Hn).
  { intros T k HT. apply filter_none. intros b Hb. unfold pending_since.
    destruct (BookingStatus_eqb _ _) eqn:Es; [| done]. simpl.
    apply BookingStatus_eqb_eq in Es. apply Z.leb_gt.
    specialize (Hyoung b k Hb Es).
    assert (180 <= T); [| lia].
    revert HT. unfold reminderIntervalMinutes.
    rewrite !elem_of_cons, elem_of_nil. lia. }
  exists s'. split; [| done].
  unfold handler. rewrite Ha, Hm. simpl.
  rewrite dispatch_unfold, Hrun. by rewrite Hn.
Qed.

Lemma X6_nothing_due_witness :
  let s := Sample.world [Sample.fresh; Sample.accepted]
             [reminder 180 Sample.accepted] in
  ∃ s', handler Sample.reliable Sample.post s
        = (Ok (mkResponse 200 (NotificationsSent 0)), s')
    ∧ booking s' = [Sample.fresh; Sample.accepted]
    ∧ reminderMail s' = [reminder 180 Sample.accepted]
    ∧ outbox s' = [] ∧ console s' = [].
Proof.
  intros s. apply (X6_nothing_due Sample.reliable Sample.post s).
  - left. split; reflexivity.
  - reflexivity.
  - intros b k Hb Hs. unfold s in Hb. simpl in Hb.
    rewrite !elem_of_cons, elem_of_nil in Hb.
    destruct Hb as [-> | [-> | []]]; [vm_compute; reflexivity | discriminate Hs].
Defined.

(** ** Which threshold a booking is reminded at *)

(** X7. In a run that gets through with the clock standing still (ids
    unique), a booking of the table gets a row at a threshold exactly
    when it is pending, passes the organizer check, that threshold is
    the largest of the three it is old enough for, and the ledger had no
    row for it at that threshold or above: a booking already reminded at
    a smaller threshold is reminded again once it has grown older than a
    larger one. *)
Theorem X7_reminded_at_largest_threshold env now req s body s' :
  NoDup (map Booking.id (booking s)) ->
  (∀ k, clock env k = now) ->
  handler env req s = (Ok (mkResponse 200 body), s') ->
  ∃ rows, reminderMail s' = reminderMail s ++ rows
    ∧ ∀ T b, b ∈ booking s ->
        (reminder T b ∈ rows
         ↔ T ∈ reminderIntervalMinutes
           ∧ Booking.status b = PENDING ∧ valid b = true
           ∧ Booking.createdAt b <= now - T * 60000
           ∧ (∀ T', T' ∈ reminderIntervalMinutes ->
                Booking.createdAt b <= now - T' * 60000 -> T' <= T)
           ∧ ¬ suppressed T (Booking.id b) (reminderMail s)).
Proof.
  intros Hnd Hc (_ & _ & Hd)%handler_200. rewrite dispatch_unfold in Hd.
  destruct (for_of _ _ (counting 0 s)) as [[[] | e] s1] eqn:Hrun; [| done].
  injection Hd as _ <-.
  destruct (passes_ok_run env now _ Hc _ _ Hrun) as [_ Hr].
  set (s0 := counting 0 s) in *.
  exists (map (λ p, reminder p.1 p.2) (run_sent now reminderIntervalMinutes s0)).
  split; [done |]. intros T b Hb.
  assert (Hfetch : ∀ T', Booking.status b = PENDING ->
            (b ∈ fetched now T' s0 ↔ Booking.createdAt b <= now - T' * 60000)).
  { intros T' Hs. rewrite fetched_spec. simpl. tauto. }
  split.
  - intros ([T' b'] & Heq & Hin)%list_elem_of_fmap.
    destruct (run_sent_sound _ _ _ _ _ Hin) as (HT & Hf & Hv & Hn).
    injection Heq as Hid ->.
    assert (b' = b) as ->.
    { apply (NoDup_map_inj Booking.id (booking s)); try done.
      by apply fetched_spec in Hf as [? _]. }
    pose proof Hf as (_ & Hs & Hage)%fetched_spec.
    repeat split; try done.
    intros T'' HT'' Hage''.
    apply (run_sent_first now reminderIntervalMinutes
             reminderIntervalMinutes_descending s0 T' b Hin T'' HT'').
    by apply Hfetch.
  - intros (HT & Hs & Hv & Hage & Hmax & Hn).
    apply (list_elem_of_fmap_2 (λ p : Z * Booking.t, reminder p.1 p.2) _ (T, b)).
    apply run_sent_complete; try done; [by apply Hfetch |].
    intros T' HT' Hf'. apply Hmax; [done |]. by apply Hfetch.
Qed.

Lemma X7_reminded_at_largest_threshold_witness :
  let s := Sample.world [Sample.old; Sample.recent] [reminder 180 Sample.old] in
  ∃ rows, reminderMail (handler Sample.reliable Sample.post s).2
          = reminderMail s ++ rows
    ∧ reminder 2880 Sample.old ∈ rows.
Proof.
  intros s.
  destruct (X7_reminded_at_largest_threshold Sample.reliable Sample.now
              Sample.post s (NotificationsSent 2)
              (handler Sample.reliable Sample.post s).2)
    as (rows & Hr & Hiff).
  - simpl. repeat (apply NoDup_cons; split;
      [rewrite ?elem_of_cons, elem_of_nil; intros H; repeat destruct H as [H | H];
         (discriminate H || exact H) |]).
    constructor.
  - reflexivity.
  - vm_compute. reflexivity.
  - exists rows. split; [done |].
    apply (Hiff 2880 Sample.old); [left |].
    split; [left |]. split; [reflexivity |]. split; [reflexivity |].
    split; [vm_compute; discriminate |]. split.
    + intros T'. unfold reminderIntervalMinutes.
      rewrite !elem_of_cons, elem_of_nil. lia.
    + intros (r & Hin & _ & _ & Hle). simpl in Hin.
      apply list_elem_of_singleton in Hin. subst r. simpl in Hle. lia.
Defined.

(** * Properties of the booking page *)

Section BookPageFacts.
Context {Rest RRule Booked Ssr Dehydrated : Type}.
Variable env : PageEnv.t Rest RRule Booked Ssr Dehydrated.

(** The ways in which the server-side function gives props. *)
Lemma getServerSideProps_props context p :
  getServerSideProps env context = Ok (Props p) ->
  ∃ ssr name user others eventTypeRaw booked,
    PageEnv.ssrInit env = Ok ssr
    ∧ PageEnv.asStringOrThrow env (Query.user context) = Ok name
    ∧ user_findMany env (PageEnv.getUsernameList env name) = user :: others
    ∧ (others = [] -> query_truthy (Query.type context) = true)
    ∧ (others ≠ [] -> query_truthy (Query.slug context) = true)
    ∧ (if (1 <? length (PageEnv.getUsernameList env name))%nat
       then eventTypeRaw = PageEnv.getDefaultEvent env (Query.slug context)
       else ∃ id, PageEnv.asStringOrThrow env (Query.type context) = Ok id
              ∧ PageEnv.eventType_findUnique env (PageEnv.parseInt env id)
                = Ok (Some eventTypeRaw))
    ∧ p = BookPageProps.mk (UserRow.away user)
            (profile_of env (1 <? length (user :: others))%nat user
               (user :: others) (Query.slug context))
            (eventTypeObject_of env eventTypeRaw
               (credential_findMany env (map UserRow.id (user :: others))))
            booked
            (recurringEventCount_of env
               (RecurringEvent.count
                  (EventTypeObject.recurringEvent
                     (eventTypeObject_of env eventTypeRaw
                        (credential_findMany env
                           (map UserRow.id (user :: others))))))
               (PageEnv.asStringOrNull env (Query.count context)))
            (PageEnv.dehydrate env ssr)
            (1 <? length (user :: others))%nat false None.
Proof.
  unfold getServerSideProps.
  destruct (PageEnv.ssrInit env) as [ssr |]; [| done]. simpl.
  destruct (PageEnv.asStringOrThrow env (Query.user context)) as [name |];
    [| done]. simpl.
  destruct (user_findMany env (PageEnv.getUsernameList env name))
    as [| user others] eqn:Hu; [done |].
  set (isDyn := (1 <? length (user :: others))%nat).
  assert (HisDyn : isDyn = match others with [] => false | _ => true end).
  { unfold isDyn. by destruct others. }
  destruct (_ || _) eqn:Hguard; [done |].
  apply orb_false_iff in Hguard as [Hg1 Hg2].
  intros H. exists ssr, name, user, others.
  destruct (1 <? length (PageEnv.getUsernameList env name))%nat.
  - simpl in H.
    destruct (_ || _) in H; simpl in H.
    + destruct (PageEnv.getBooking env _) as [booked |]; [| done].
      injection H as <-. eexists _, booked. repeat split; try done.
      * intros ->. rewrite HisDyn in Hg1. simpl in Hg1.
        by apply negb_false_iff in Hg1.
      * intros Hne. rewrite HisDyn in Hg2. destruct others; [done |].
        simpl in Hg2. by apply negb_false_iff in Hg2.
    + injection H as <-. eexists _, None. repeat split; try done.
      * intros ->. rewrite HisDyn in Hg1. simpl in Hg1.
        by apply negb_false_iff in Hg1.
      * intros Hne. rewrite HisDyn in Hg2. destruct others; [done |].
        simpl in Hg2. by apply negb_false_iff in Hg2.
  - simpl in H.
    destruct (PageEnv.asStringOrThrow env (Query.type context)) as [id |];
      [| done]. simpl in H.
    destruct (PageEnv.eventType_findUnique env _) as [[raw |] |] eqn:Hf;
      [| done | done]. simpl in H.
    destruct (_ || _) in H; simpl in H.
    + destruct (PageEnv.getBooking env _) as [booked |]; [| done].
      injection H as <-. exists raw, booked. repeat split; try done.
      * intros ->. rewrite HisDyn in Hg1. simpl in Hg1.
        by apply negb_false_iff in Hg1.
      * intros Hne. rewrite HisDyn in Hg2. destruct others; [done |].
        simpl in Hg2. by apply negb_false_iff in Hg2.
      * by exists id.
    + injection H as <-. exists raw, None. repeat split; try done.
      * intros ->. rewrite HisDyn in Hg1. simpl in Hg1.
        by apply negb_false_iff in Hg1.
      * intros Hne. rewrite HisDyn in Hg2. destruct others; [done |].
        simpl in Hg2. by apply negb_false_iff in Hg2.
      * by exists id.
Qed.
End BookPageFacts.

Section BookPageTheorems.
Context {Rest RRule Booked Ssr Dehydrated : Type}.
Variable env : PageEnv.t Rest RRule Booked Ssr Dehydrated.


Lemma getServerSideProps_stages context ssr name user others :
  PageEnv.ssrInit env = Ok ssr ->
  PageEnv.asStringOrThrow env (Query.user context) = Ok name ->
  user_findMany env (PageEnv.getUsernameList env name) = user :: others ->
  (match others with
   | [] => query_truthy (Query.type context)
   | _ => query_truthy (Query.slug context)
   end = false
   ∧ getServerSideProps env context = Ok NotFound)
  ∨ (match others with
     | [] => query_truthy (Query.type context)
     | _ => query_truthy (Query.slug context)
     end = true
     ∧ match eventTypeRaw_of env context name with
       | Failed e => getServerSideProps env context = Failed e
       | Ok None => getServerSideProps env context = Ok NotFound
       | Ok (Some raw) =>
           getServerSideProps env context ≠ Ok NotFound
       end).
Proof.
  intros Hssr Hname Hu. unfold getServerSideProps, eventTypeRaw_of.
  rewrite Hssr, Hname. cbn [mbind Res_bind]. rewrite Hu.
  assert (Hd : (1 <? length (user :: others))%nat
               = match others with [] => false | _ => true end)
    by (by destruct others).
  rewrite Hd. clear Hd.
  destruct others as [| user2 others'].
  - cbn [negb andb orb].
    destruct (query_truthy (Query.type context)); cbn [negb andb orb];
      [right; split; [done |] | left; done].
    destruct (1 <? length (PageEnv.getUsernameList env name))%nat;
      cbn [mbind Res_bind mret Res_ret].
    + destruct (_ || _); cbn [mbind Res_bind mret Res_ret]; [| done].
      by destruct (PageEnv.getBooking env _).
    + destruct (PageEnv.asStringOrThrow env (Query.type context)) as [id |];
        cbn [mbind Res_bind mret Res_ret]; [| done].
      destruct (PageEnv.eventType_findUnique env _) as [[raw |] |];
        cbn [mbind Res_bind mret Res_ret]; [| done | done].
      destruct (_ || _); cbn [mbind Res_bind mret Res_ret]; [| done].
      by destruct (PageEnv.getBooking env _).
  - cbn [negb andb orb].
    destruct (query_truthy (Query.slug context)); cbn [negb andb orb];
      [right; split; [done |] | left; done].
    destruct (1 <? length (PageEnv.getUsernameList env name))%nat;
      cbn [mbind Res_bind mret Res_ret].
    + destruct (_ || _); cbn [mbind Res_bind mret Res_ret]; [| done].
      by destruct (PageEnv.getBooking env _).
    + destruct (PageEnv.asStringOrThrow env (Query.type context)) as [id |];
        cbn [mbind Res_bind mret Res_ret]; [| done].
      destruct (PageEnv.eventType_findUnique env _) as [[raw |] |];
        cbn [mbind Res_bind mret Res_ret]; [| done | done].
      destruct (_ || _); cbn [mbind Res_bind mret Res_ret]; [| done].
      by destruct (PageEnv.getBooking env _).
Qed.

(** X9. The function answers "not found" exactly when no user has one
    of the names of the link; or one has and the link has no [type]; or
    several have and the link has no [slug] (a group link needs no
    [type]); or the link names one user only and there is no event type
    with the id of [type]. *)
Theorem X9_not_found_cases context ssr name :
  PageEnv.ssrInit env = Ok ssr ->
  PageEnv.asStringOrThrow env (Query.user context) = Ok name ->
  getServerSideProps env context = Ok NotFound
  ↔ match user_findMany env (PageEnv.getUsernameList env name) with
    | [] => True
    | [_] =>
        query_truthy (Query.type context) = false
        ∨ ((length (PageEnv.getUsernameList env name) <= 1)%nat
           ∧ ∃ id, PageEnv.asStringOrThrow env (Query.type context) = Ok id
               ∧ PageEnv.eventType_findUnique env (PageEnv.parseInt env id)
                 = Ok None)
    | _ :: _ :: _ =>
        query_truthy (Query.slug context) = false
        ∨ ((length (PageEnv.getUsernameList env name) <= 1)%nat
           ∧ ∃ id, PageEnv.asStringOrThrow env (Query.type context) = Ok id
               ∧ PageEnv.eventType_findUnique env (PageEnv.parseInt env id)
                 = Ok None)
    end.
Proof.
  intros Hssr Hname.
  assert (Hraw : eventTypeRaw_of env context name = Ok None
    ↔ (length (PageEnv.getUsernameList env name) <= 1)%nat
      ∧ ∃ id, PageEnv.asStringOrThrow env (Query.type context) = Ok id
          ∧ PageEnv.eventType_findUnique env (PageEnv.parseInt env id) = Ok None).
  { unfold eventTypeRaw_of.
    destruct (Nat.ltb_spec 1 (length (PageEnv.getUsernameList env name))).
    - split; [done | intros [? _]; lia].
    - destruct (PageEnv.asStringOrThrow env (Query.type context)) as [id |].
      + split; [intros ?; split; [done | by exists id] |].
        by intros (_ & id' & [= <-] & ?).
      + split; [done | by intros (_ & ? & ? & _)]. }
  destruct (user_findMany env (PageEnv.getUsernameList env name))
    as [| user others] eqn:Hu.
  - unfold getServerSideProps. rewrite Hssr, Hname. cbn [mbind Res_bind].
    by rewrite Hu.
  - destruct (getServerSideProps_stages context ssr name user others
                Hssr Hname Hu) as [[Hq Hnf] | [Hq Hst]].
    + destruct others as [| user2 others']; (split; [by left | done]).
    + destruct others as [| user2 others']; rewrite <- Hraw;
        (destruct (eventTypeRaw_of env context name) as [[raw |] | e];
         [split; [done | intros [? | ?]; congruence]
         | split; [by right | done]
         | rewrite Hst; split; [done | intros [? | ?]; congruence]]).
Qed.

Lemma all_allow_dynamic (users : list UserRow.t) :
  negb (existsb (λ user, negb (bool_truthy (UserRow.allowDynamicBooking user))) users)
    = true
  ↔ ∀ u, u ∈ users -> UserRow.allowDynamicBooking u = Some true.
Proof.
  rewrite negb_true_iff. split.
  - intros H u Hu. destruct (UserRow.allowDynamicBooking u) as [[|] |] eqn:E;
      [done | |]; exfalso;
      (assert (existsb (λ user, negb (bool_truthy (UserRow.allowDynamicBooking user)))
                 users = true);
       [apply existsb_elem_of; exists u; split; [done | by rewrite E] | congruence]).
  - intros H. destruct (existsb _ users) eqn:E; [| done].
    apply existsb_elem_of in E as (u & Hu & Hn). rewrite (H u Hu) in Hn. done.
Qed.

(** X10. What the page shows for the props of the function.  It shows
    the away notice exactly when the first user found is away (the away
    flag of the other users of a group link is not looked at); else,
    for a link with several users found, the booking page exactly when
    every one of them allows dynamic group booking, and the unavailable
    notice otherwise; for one user, always the booking page. *)
Theorem X10_what_the_page_shows context p :
  getServerSideProps env context = Ok (Props p) ->
  ∃ name user others,
    PageEnv.asStringOrThrow env (Query.user context) = Ok name
    ∧ user_findMany env (PageEnv.getUsernameList env name) = user :: others
    ∧ (Book p = AwayNotice ↔ UserRow.away user = true)
    ∧ (Book p = BookingPageView p
       ↔ UserRow.away user = false
         ∧ (others ≠ [] ->
            ∀ u, u ∈ user :: others -> UserRow.allowDynamicBooking u = Some true))
    ∧ (Book p = UnavailableNotice
       ↔ UserRow.away user = false ∧ others ≠ []
         ∧ ¬ ∀ u, u ∈ user :: others -> UserRow.allowDynamicBooking u = Some true).
Proof.
  intros (ssr & name & user & others & raw & booked & _ & Hn & Hu & _ & _ & _ & ->)
    %getServerSideProps_props.
  exists name, user, others. split; [done |]. split; [done |].
  unfold Book. cbn [BookPageProps.away BookPageProps.isDynamicGroupBooking
                    BookPageProps.profile].
  destruct (UserRow.away user).
  { split; [done |]. split; (split; [done | by intros [? _]]). }
  destruct others as [| user2 others'].
  - change (1 <? length [user])%nat with false. cbn [andb].
    split; [done |]. split; [done |]. split; [done | by intros (_ & ? & _)].
  - change (1 <? length (user :: user2 :: others'))%nat with true.
    unfold profile_of. cbn [andb profile_allowDynamicBooking].
    pose proof (all_allow_dynamic (user :: user2 :: others')) as Hall.
    destruct (negb (existsb _ (user :: user2 :: others'))); cbn [negb].
    + split; [done |]. split.
      * split; [intros _; split; [done |]; intros _; by apply Hall | done].
      * split; [done |]. intros (_ & _ & Hno). destruct Hno. by apply Hall.
    + split; [done |]. split.
      * split; [done |]. intros [_ H]. assert (false = true); [| done].
        apply Hall. by apply H.
      * split; [| done]. intros _. split; [done |]. split; [done |].
        intros H. assert (false = true); [| done]. by apply Hall.
Qed.

(** X11. Whether the link is a group link is decided by the users
    found, but which event type is taken by the names given: when the
    link gives several names and exactly one of them is a user, the
    props are those of that user alone (no group, the user's own
    profile) with the default event of a group link. *)
Theorem X11_one_user_of_several_names context p name user :
  getServerSideProps env context = Ok (Props p) ->
  PageEnv.asStringOrThrow env (Query.user context) = Ok name ->
  (1 < length (PageEnv.getUsernameList env name))%nat ->
  user_findMany env (PageEnv.getUsernameList env name) = [user] ->
  BookPageProps.isDynamicGroupBooking p = false
  ∧ BookPageProps.profile p
    = UserProfile (js_or (UserRow.name user) (UserRow.username user))
        (UserRow.avatar user) (UserRow.username user) (UserRow.theme user)
        (UserRow.brandColor user) (UserRow.darkBrandColor user)
  ∧ BookPageProps.eventType p
    = eventTypeObject_of env
        (PageEnv.getDefaultEvent env (Query.slug context))
        (credential_findMany env [UserRow.id user])
  ∧ query_truthy (Query.type context) = true.
Proof.
  intros (ssr & name' & user' & others & raw & booked & _ & Hn & Hu & Ht & _
          & Hraw & ->)%getServerSideProps_props Hname Hmany Huser.
  rewrite Hname in Hn. injection Hn as <-.
  rewrite Huser in Hu. injection Hu as <- <-.
  apply Nat.ltb_lt in Hmany. rewrite Hmany in Hraw. subst raw.
  repeat split. by apply Ht.
Qed.

End BookPageTheorems.


Lemma X9_not_found_cases_witness :
  getServerSideProps SamplePage.env
    (SamplePage.link "ann" QUndefined QUndefined QUndefined) = Ok NotFound
  ∧ getServerSideProps SamplePage.env
      (SamplePage.link "ann" QUndefined (QString "8") QUndefined) = Ok NotFound.
Proof.
  split.
  - apply (X9_not_found_cases SamplePage.env
             (SamplePage.link "ann" QUndefined QUndefined QUndefined) () "ann"
             eq_refl eq_refl).
    left. reflexivity.
  - apply (X9_not_found_cases SamplePage.env
             (SamplePage.link "ann" QUndefined (QString "8") QUndefined) () "ann"
             eq_refl eq_refl).
    right. split; [simpl; lia |]. exists "8". split; reflexivity.
Defined.

Lemma X10_what_the_page_shows_witness :
  ∃ p, getServerSideProps SamplePage.env
         (SamplePage.link "ann+bob" (QString "30min") QUndefined QUndefined)
       = Ok (Props p)
    ∧ Book p = UnavailableNotice.
Proof.
  eexists. split; [reflexivity |].
  destruct (X10_what_the_page_shows SamplePage.env
              (SamplePage.link "ann+bob" (QString "30min") QUndefined QUndefined)
              _ eq_refl)
    as (name & user & others & Hn & Hu & _ & _ & Hun).
  injection Hn as <-. injection Hu as <- <-.
  apply Hun. split; [reflexivity |]. split; [discriminate |].
  intros H. specialize (H SamplePage.bob). discriminate H. right. left.
Defined.

Lemma X11_one_user_of_several_names_witness :
  ∃ p, getServerSideProps SamplePage.env
         (SamplePage.link "ann+zed" (QString "30min") (QString "7") QUndefined)
       = Ok (Props p)
    ∧ BookPageProps.isDynamicGroupBooking p = false
    ∧ EventTypeObject.recurringEvent (BookPageProps.eventType p)
      = RecurringEvent.mk None None.
Proof.
  eexists. split; [reflexivity |].
  destruct (X11_one_user_of_several_names SamplePage.env
              (SamplePage.link "ann+zed" (QString "30min") (QString "7") QUndefined)
              _ "ann+zed" SamplePage.ann eq_refl eq_refl)
    as (Hd & _ & He & _).
  - simpl. lia.
  - reflexivity.
  - split; [exact Hd |]. rewrite He. reflexivity.
Defined.

(** ** The diagnostics of a run *)

Lemma filter_filter_ext {A} (f g1 g2 : A -> bool) (l : list A) :
  (∀ x, x ∈ l -> f x = true -> g1 x = g2 x) ->
  List.filter f (List.filter g1 l) = List.filter f (List.filter g2 l).
Proof.
  induction l as [| x l IH]; intros H; [done |]. simpl.
  assert (IH' : List.filter f (List.filter g1 l) = List.filter f (List.filter g2 l)).
  { apply IH. intros y Hy. apply H. by right. }
  destruct (f x) eqn:Ef.
  - rewrite <- (H x (list_elem_of_here _ _) Ef).
    destruct (g1 x); simpl; by rewrite ?Ef, IH'.
  - destruct (g1 x), (g2 x); simpl; by rewrite ?Ef, IH'.
Qed.

(** The rows a pass writes are for bookings that pass the organizer
    check: they do not change which of the other bookings are
    candidates. *)
Lemma skipped_candidates_frame now interval T s :
  NoDup (map Booking.id (booking s)) ->
  List.filter (λ b, negb (valid b)) (candidates_at now T (after_pass now interval s))
  = List.filter (λ b, negb (valid b)) (candidates_at now T s).
Proof.
  intros Hnd. destruct (after_pass_frame now interval s) as [Hb Hr].
  unfold candidates_at, candidates.
  rewrite (fetched_frame now T s _ Hb).
  apply filter_filter_ext. intros b Hf Hv. f_equal.
  apply negb_true_iff in Hv.
  assert (Hf' : b ∈ fetched now T (after_pass now interval s))
    by (by rewrite (fetched_frame now T s _ Hb)).
  pose proof (excluded_iff_suppressed now T s b Hf) as H1.
  pose proof (excluded_iff_suppressed now T _ b Hf') as H2.
  assert (Hiff : suppressed T (Booking.id b) (reminderMail (after_pass now interval s))
                 ↔ suppressed T (Booking.id b) (reminderMail s)).
  { rewrite Hr. split.
    - intros (r & [Hin | Hin]%elem_of_app & Ht & Hid & He); [by exists r |].
      apply list_elem_of_fmap in Hin as (b' & -> & [Hv' Hc]%elem_of_filter_bool).
      apply candidates_at_spec in Hc as [Hf0 _]. simpl in Hid.
      assert (b' = b) as ->; [| congruence].
      apply (NoDup_map_inj Booking.id (booking s)); try done.
      + by apply fetched_spec in Hf0 as [? _].
      + by apply fetched_spec in Hf as [? _].
    - apply suppressed_mono; [lia |]. intros r Hin. apply elem_of_app. by left. }
  destruct (existsb _ (reminders_of now T (after_pass now interval s))),
    (existsb _ (reminders_of now T s)); try done.
  - assert (false = true); [| done]. apply H1, Hiff, H2. done.
  - assert (false = true); [| done]. apply H2, Hiff, H1. done.
Qed.

Lemma passes_ok_console env now intervals :
  (∀ k, clock env k = now) ->
  ∀ s s', NoDup (map Booking.id (booking s)) ->
    for_of intervals (pass env) s = (Ok (), s') ->
    console s'
    = console s
      ++ flat_map (λ T, map skipped
                     (List.filter (λ b, negb (valid b)) (candidates_at now T s)))
           intervals.
Proof.
  intros Hc. induction intervals as [| T later IH]; intros s s' Hnd H.
  - injection H as <-. simpl. by rewrite app_nil_r.
  - rewrite for_of_cons in H.
    destruct (pass env T s) as [[[] | e] s1] eqn:Hp; [| done].
    apply pass_ok in Hp. rewrite Hc in Hp. subst s1.
    destruct (after_pass_frame now T s) as [Hb _].
    rewrite (IH _ _ ltac:(by rewrite Hb) H). simpl.
    unfold after_pass at 1. rewrite completed_console. simpl.
    rewrite <- app_assoc. do 2 f_equal.
    apply flat_map_ext. intros T'.
    by rewrite (skipped_candidates_frame now T T' s Hnd).
Qed.

(** X12. In a run that gets through with the clock standing still (ids
    unique), the diagnostics logged are, threshold by threshold from
    the largest, one for each candidate of the state the run started
    in (a pending booking old enough for the threshold, with no ledger
    row at that threshold or above) that fails the organizer check: a
    booking without organizer data is logged once for every threshold
    it is old enough for, up to three times in one run. *)
Theorem X12_diagnostic_at_every_pass env now req s body s' :
  NoDup (map Booking.id (booking s)) ->
  (∀ k, clock env k = now) ->
  handler env req s = (Ok (mkResponse 200 body), s') ->
  console s'
  = console s
    ++ flat_map (λ T, map skipped
                   (List.filter (λ b, negb (valid b)) (candidates_at now T s)))
         reminderIntervalMinutes.
Proof.
  intros Hnd Hc (_ & _ & Hd)%handler_200. rewrite dispatch_unfold in Hd.
  destruct (for_of _ _ (counting 0 s)) as [[[] | e] s1] eqn:Hrun; [| done].
  injection Hd as _ <-.
  apply (passes_ok_console env now reminderIntervalMinutes Hc (counting 0 s) s1 Hnd
           Hrun).
Qed.

Lemma X12_diagnostic_at_every_pass_witness :
  let s := Sample.world [Sample.old; Sample.orphan] [] in
  console (handler Sample.reliable Sample.post s).2
  = [skipped Sample.orphan; skipped Sample.orphan; skipped Sample.orphan].
Proof.
  intros s.
  rewrite (X12_diagnostic_at_every_pass Sample.reliable Sample.now Sample.post s
             (NotificationsSent 1) (handler Sample.reliable Sample.post s).2).
  - reflexivity.
  - simpl. repeat (apply NoDup_cons; split;
      [rewrite ?elem_of_cons, elem_of_nil; intros H; repeat destruct H as [H | H];
         (discriminate H || exact H) |]).
    constructor.
  - reflexivity.
  - vm_compute. reflexivity.
Defined.

(** ** A mail without its row *)

(** When the ledger insert rejects, the mail that has just gone out is
    the last of the outbox, and its booking is still a candidate at the
    largest threshold it is old enough for. *)
Lemma run_insert_rejected env now intervals :
  (∀ k, clock env k = now) ->
  descending intervals ->
  ∀ s s1, NoDup (map Booking.id (booking s)) ->
    for_of intervals (pass env) s
      = (Failed (Rejected "prisma.reminderMail.create"), s1) ->
    ∃ T b evt before,
      T ∈ intervals ∧ payload b = Some evt
      ∧ b ∈ fetched now T s
      ∧ (∀ T', T' ∈ intervals -> b ∈ fetched now T' s -> T' <= T)
      ∧ ¬ suppressed T (Booking.id b) (reminderMail s1)
      ∧ outbox s1 = before ++ [evt]
      ∧ booking s1 = booking s.
Proof.
  intros Hc. induction 1 as [| T0 later Hlater IH HT0]; intros s s1 Hnd Hrun;
    [done |].
  rewrite for_of_cons in Hrun.
  destruct (pass env T0 s) as [res0 s0] eqn:Hp.
  destruct res0 as [[] | e].
  - apply pass_ok in Hp. rewrite Hc in Hp. subst s0.
    destruct (after_pass_frame now T0 s) as [Hb Hr].
    destruct (IH _ _ ltac:(by rewrite Hb) Hrun)
      as (T & b & evt & before & HT & He & Hf & Hmax & Hn & Ho & Hb1).
    rewrite (fetched_frame now T s _ Hb) in Hf.
    exists T, b, evt, before. split; [by right |]. split; [done |].
    split; [done |]. split; [| split; [done |]; split; [done | congruence]].
    intros T' [-> | HT']%elem_of_cons Hf'.
    + exfalso. apply Hn.
      assert (HTle : T <= T0) by by apply (proj1 (Forall_forall _ _) HT0).
      destruct (passes_frame _ _ _ _ _ Hrun) as [_ [rs Hrs]].
      eapply suppressed_mono; [exact HTle | |].
      * intros r Hin. rewrite Hrs. apply elem_of_app. left. exact Hin.
      * apply after_pass_settled.
        -- by rewrite (fetched_frame now T0 s _ Hb).
        -- apply payload_valid. by eexists.
    + apply Hmax; [done |]. by rewrite (fetched_frame now T' s _ Hb).
  - injection Hrun as -> <-.
    pose proof (pass_outcome env T0 s) as Ho. rewrite Hp, Hc in Ho. simpl in Ho.
    inversion Ho as [| | l1 b l2 evt Hl He Hd Hpers]; subst.
    assert (Hcb : b ∈ candidates_at now T0 s).
    { rewrite Hl. apply elem_of_app. right. by left. }
    apply candidates_at_spec in Hcb as [Hf Hn].
    exists T0, b, evt, (outbox (completed T0 l1 (ticked s))).
    split; [by left |]. split; [done |]. split; [done |]. split.
    { intros T' [-> | HT']%elem_of_cons _; [lia |].
      by apply (proj1 (Forall_forall _ _) HT0). }
    split; [| split; [done |]].
    + cbn [reminderMail mailed]. rewrite completed_reminderMail. simpl.
      intros (r & [Hin | Hin]%elem_of_app & Ht & Hid & Hle);
        [apply Hn; by exists r |].
      apply list_elem_of_fmap in Hin as (b' & -> & [_ Hin]%elem_of_filter_bool).
      simpl in Hid.
      pose proof (candidates_at_NoDup now T0 s Hnd) as Hndc.
      rewrite Hl, map_app in Hndc. simpl in Hndc.
      apply NoDup_app in Hndc as (_ & Hdisj & _).
      apply (Hdisj (Booking.id b')); [by apply (list_elem_of_fmap_2 Booking.id) |].
      rewrite Hid. by left.
    + cbn [booking mailed].
      by destruct (completed_frame T0 l1 (ticked s)) as [-> _].
Qed.

(** X13. A mail whose ledger insert was rejected is sent again by the
    next run that gets through (ids unique, the clock standing still):
    nothing remembers that it went out. *)
Theorem X13_unrecorded_mail_is_sent_again env env' now req s s1 body s2 :
  NoDup (map Booking.id (booking s)) ->
  (∀ k, clock env k = now) ->
  (∀ k, clock env' k = now) ->
  handler env req s = (Failed (Rejected "prisma.reminderMail.create"), s1) ->
  handler env' req s1 = (Ok (mkResponse 200 body), s2) ->
  ∃ evt before after,
    outbox s1 = before ++ [evt]
    ∧ outbox s2 = outbox s1 ++ after
    ∧ evt ∈ after.
Proof.
  intros Hnd Hc Hc' H1 (_ & _ & H2)%handler_200.
  assert (Hrun1 : for_of reminderIntervalMinutes (pass env) (counting 0 s)
                  = (Failed (Rejected "prisma.reminderMail.create"), s1)).
  { unfold handler in H1. destruct (strict_ne _ _); [done |].
    destruct (bool_decide _); [| done]. cbn [negb] in H1.
    rewrite dispatch_unfold in H1.
    destruct (for_of _ _ (counting 0 s)) as [[[] | e] s']; [done |].
    by injection H1 as -> <-. }
  destruct (run_insert_rejected env now reminderIntervalMinutes Hc
              reminderIntervalMinutes_descending (counting 0 s) s1 Hnd Hrun1)
    as (T & b & evt & before & HT & He & Hf & Hmax & Hn & Ho & Hb).
  simpl in Hb. rewrite dispatch_unfold in H2.
  destruct (for_of _ _ (counting 0 s1)) as [[[] | e] s2'] eqn:Hrun2; [| done].
  injection H2 as _ <-.
  destruct (passes_ok_run env' now _ Hc' _ _ Hrun2) as [Ho2 _].
  exists evt, before,
    (omap (λ p, payload p.2) (run_sent now reminderIntervalMinutes (counting 0 s1))).
  split; [done |]. split; [done |].
  apply list_elem_of_omap. exists (T, b). split; [| done].
  assert (Hfr : ∀ T', fetched now T' (counting 0 s1) = fetched now T' (counting 0 s)).
  { intros T'. by apply fetched_frame. }
  apply run_sent_complete; try done.
  - simpl. by rewrite Hb.
  - by rewrite Hfr.
  - apply payload_valid. by eexists.
  - intros T' HT' Hf'. apply Hmax; [done |]. by rewrite <- Hfr.
Qed.

Lemma X13_unrecorded_mail_is_sent_again_witness :
  let s := Sample.world [Sample.old] [] in
  ∃ evt before after,
    outbox (handler Sample.readonly Sample.post s).2 = before ++ [evt]
    ∧ outbox (handler Sample.reliable Sample.post
                (handler Sample.readonly Sample.post s).2).2
      = outbox (handler Sample.readonly Sample.post s).2 ++ after
    ∧ evt ∈ after.
Proof.
  intros s.
  apply (X13_unrecorded_mail_is_sent_again Sample.readonly Sample.reliable
           Sample.now Sample.post s _ (NotificationsSent 1)).
  - simpl. apply NoDup_cons. split; [by intros ?%elem_of_nil | constructor].
  - reflexivity.
  - reflexivity.
  - vm_compute. reflexivity.
  - vm_compute. reflexivity.
Defined.

(** ** The web3 flag and the booking of the page *)

Lemma find_first {A} (f : A -> bool) (l : list A) (x : A) :
  List.find f l = Some x ->
  ∃ before after, l = before ++ x :: after
    ∧ Forall (λ y, f y = false) before ∧ f x = true.
Proof.
  induction l as [| a l IH]; [done |]. simpl.
  destruct (f a) eqn:Ha.
  - intros [= ->]. exists [], l. by repeat split.
  - intros (before & after & -> & Hb & Hx)%IH.
    exists (a :: before), after. repeat split; [| done]. by constructor.
Qed.

Section BookPageMore.
Context {Rest RRule Booked Ssr Dehydrated : Type}.
Variable env : PageEnv.t Rest RRule Booked Ssr Dehydrated.

(** X14. The web3 flag of the event type in the props is [false] or a
    truthy value, and when it is not [false] it is the [isWeb3Active]
    member of the key of the first credential, among those of the users
    found, whose type contains "_web3": credentials of other users, and
    web3 credentials after the first, never switch it on. *)
Theorem X14_web3_flag_from_first_credential context p :
  getServerSideProps env context = Ok (Props p) ->
  EventTypeObject.isWeb3Active (BookPageProps.eventType p) = JBool false
  ∨ (json_truthy (EventTypeObject.isWeb3Active (BookPageProps.eventType p)) = true
     ∧ ∃ name before c after user,
         PageEnv.asStringOrThrow env (Query.user context) = Ok name
         ∧ List.filter
             (λ c, match Credential.userId c with
                   | Some i =>
                       existsb (Z.eqb i)
                         (map UserRow.id
                            (user_findMany env (PageEnv.getUsernameList env name)))
                   | None => false
                   end)
             (PageEnv.credential_table env)
           = before ++ c :: after
         ∧ Forall (λ c', includes "_web3" (Credential.type c') = false) before
         ∧ includes "_web3" (Credential.type c) = true
         ∧ user ∈ user_findMany env (PageEnv.getUsernameList env name)
         ∧ Credential.userId c = Some (UserRow.id user)
         ∧ property "isWeb3Active" (Credential.key c)
           = Some (EventTypeObject.isWeb3Active (BookPageProps.eventType p))).
Proof.
  intros (ssr & name & user & others & raw & booked & _ & Hn & Hu & _ & _ & _
          & ->)%getServerSideProps_props.
  cbn [BookPageProps.eventType eventTypeObject_of EventTypeObject.isWeb3Active].
  unfold isWeb3Active_of.
  destruct (List.find _ _) as [c |] eqn:Hfind; [| by left].
  destruct (json_truthy (Credential.key c)); [| by left].
  destruct (property "isWeb3Active" (Credential.key c)) as [v |] eqn:Hv;
    [| by left].
  destruct (json_truthy v) eqn:Htv; [| by left].
  right. split; [done |].
  apply find_first in Hfind as (before & after & Hl & Hb & Hc).
  assert (Hin : c ∈ credential_findMany env (map UserRow.id (user :: others))).
  { rewrite Hl. apply elem_of_app. right. by left. }
  apply list_elem_of_In, filter_In in Hin as [_ Hid].
  destruct (Credential.userId c) as [i |] eqn:Hi; [| done].
  apply existsb_exists in Hid as (i' & Hi' & ->%Z.eqb_eq).
  apply in_map_iff in Hi' as (u & <- & Hu').
  exists name, before, c, after, u. rewrite Hu.
  repeat split; try done. by apply list_elem_of_In.
Qed.

(** X15. The booking of the props is looked up by [rescheduleUid] when
    the link gives one, by [bookingUid] only when it gives no
    [rescheduleUid]; with neither (an empty string counts as none) no
    booking is looked up and the props carry null. *)
Theorem X15_booking_by_reschedule_uid_first context p :
  getServerSideProps env context = Ok (Props p) ->
  if query_truthy (Query.rescheduleUid context)
  then PageEnv.getBooking env (Query.rescheduleUid context)
       = Ok (BookPageProps.booking p)
  else if query_truthy (Query.bookingUid context)
  then PageEnv.getBooking env (Query.bookingUid context)
       = Ok (BookPageProps.booking p)
  else BookPageProps.booking p = None.
Proof.
  unfold getServerSideProps.
  destruct (PageEnv.ssrInit env) as [ssr |]; [| done].
  cbn [mbind Res_bind mret Res_ret].
  destruct (PageEnv.asStringOrThrow env (Query.user context)) as [name |];
    [| done]. cbn [mbind Res_bind mret Res_ret].
  destruct (user_findMany env (PageEnv.getUsernameList env name))
    as [| user others]; [done |].
  destruct (_ && _ || _ && _); [done |].
  destruct (1 <? length (PageEnv.getUsernameList env name))%nat;
    cbn [mbind Res_bind mret Res_ret].
  - destruct (query_truthy (Query.rescheduleUid context));
      [| destruct (query_truthy (Query.bookingUid context))];
      cbn [orb mbind Res_bind mret Res_ret];
      try (destruct (PageEnv.getBooking env _) as [booked |]; [| done]);
      by intros [= <-].
  - destruct (PageEnv.asStringOrThrow env (Query.type context)) as [id |];
      [| done]. cbn [mbind Res_bind mret Res_ret].
    destruct (PageEnv.eventType_findUnique env _) as [[raw |] |];
      [| done | done]. cbn [mbind Res_bind mret Res_ret].
    destruct (query_truthy (Query.rescheduleUid context));
      [| destruct (query_truthy (Query.bookingUid context))];
      cbn [orb mbind Res_bind mret Res_ret];
      try (destruct (PageEnv.getBooking env _) as [booked |]; [| done]);
      by intros [= <-].
Qed.

End BookPageMore.

Lemma X14_web3_flag_from_first_credential_witness :
  ∃ p, getServerSideProps
         (SamplePage.desk [SamplePage.foreign; SamplePage.calendar;
                           SamplePage.dormant; SamplePage.active])
         (SamplePage.link "ann" QUndefined (QString "7") QUndefined)
       = Ok (Props p)
    ∧ EventTypeObject.isWeb3Active (BookPageProps.eventType p) = JBool false.
Proof.
  eexists. split; [reflexivity |].
  destruct (X14_web3_flag_from_first_credential
              (SamplePage.desk [SamplePage.foreign; SamplePage.calendar;
                                SamplePage.dormant; SamplePage.active])
              (SamplePage.link "ann" QUndefined (QString "7") QUndefined)
              _ eq_refl) as [H | [H _]].
  - exact H.
  - discriminate H.
Defined.

Lemma X15_booking_by_reschedule_uid_first_witness :
  ∃ p, getServerSideProps (SamplePage.desk [])
         (Query.mk (QString "ann") QUndefined QUndefined (QString "7")
            (QString "uid-1") (QString "uid-2"))
       = Ok (Props p)
    ∧ PageEnv.getBooking (SamplePage.desk []) (QString "uid-1")
      = Ok (BookPageProps.booking p).
Proof.
  eexists. split; [reflexivity |].
  exact (X15_booking_by_reschedule_uid_first (SamplePage.desk [])
           (Query.mk (QString "ann") QUndefined QUndefined (QString "7")
              (QString "uid-1") (QString "uid-2")) _ eq_refl).
Defined.
